(** * A shallow embedding of the Steem block-stream ingestion pipeline

    Sources embedded (python, under [Steem Download/]):
    - [steemstream/account.py]        : [AccountChecker.check] / [update]
    - [steemstream/process/social.py] : [handle_vote], [parse_resteem], [handle_resteem]
    - [steemstream/process/post.py]   : [handle_beneficiary]
    - [steemstream/process/reward.py] : [handle_author_reward], [CurationRewards],
                                        [handle_curation_reward], [BeneficiaryRewards],
                                        [handle_beneficiary_reward]
    - [steemstream/stream_blocks.py]  : [insert_data], [stream_data]
    - [main.py]                       : [start_block_stream]
    - [steemstream/stream_prices.py]  : [get_missing_prices]

    Modelling conventions.
    - Python exceptions are the constructors of [exn]; a handler runs in a
      state-and-error monad [M] whose failing branch still returns the state,
      because the Python handlers mutate the shared lists in place before a
      later call may raise.
    - The per-category lists of [stream_data] are an association list in the
      key order of the [data_to_insert] dict.  The [accounts] entry is the
      very list object the [AccountChecker] appends to ([acc_list] aliases
      [accounts]), so the checker reads and writes that entry.
    - Amounts such as ['2000.5 VESTS'] are given already converted by
      [int(float(...))]: the operation carries the resulting integer.
    - Block timestamps and clock readings are integers (microseconds). *)

From Stdlib Require Import String List ZArith Bool Lia.
Import ListNotations.
Local Open Scope string_scope.
Local Open Scope Z_scope.
Local Open Scope list_scope.
Set Warnings "-register-all".

(** ** Exceptions and the handler monad *)

Inductive exn :=
| RPCError
| IndexError
| AttributeError
| KeyError
| TypeError.

(** JSON values, as produced by [json.loads]. *)
Inductive json :=
| JNull
| JBool (b : bool)
| JNum (z : Z)
| JStr (s : string)
| JArr (xs : list json)
| JObj (kvs : list (string * json)).

(** ** Records appended to the batches *)

Record AccountData := mkAccount { username : string; date_created : Z }.

Record VoteData := mkVote {
  v_author : string; v_permlink : string; v_voter : string;
  v_time : Z; v_weight : Z; v_rshares : Z }.

Record BeneficiaryData := mkBeneficiary {
  b_author : string; b_permlink : string; b_beneficiary : string; b_pct : Z }.

(** The dict returned by [parse_resteem]; [handle_resteem] adds ['time']. *)
Record ResteemData := mkResteem {
  r_author : json; r_permlink : json; r_resteemed_by : json; r_followers : Z }.

Record AuthorRewardData := mkAuthorReward {
  ar_author : string; ar_permlink : string; ar_reward_time : Z; ar_vests : Z }.

(** A [CurationRewards] / [BeneficiaryRewards] object: the tracked post key
    ([None] for the initial [CurationRewards(None, None, None)]), the time the
    group was opened and the accumulated [(account, vests)] rewards. *)
Record Group := mkGroup {
  g_author : option string; g_permlink : option string;
  g_reward_time : option Z; g_rewards : list (string * Z) }.

Record PostValueData := mkPostValue {
  pv_author : string; pv_permlink : string; pv_total_value : Z }.

Inductive Rec :=
| RAccount (a : AccountData)
| RVote (v : VoteData)
| RBeneficiary (b : BeneficiaryData)
| RResteem (r : ResteemData) (time : Z)
| RAuthorReward (a : AuthorRewardData)
| RCurationRewards (g : Group)
| RBeneficiaryRewards (g : Group)
| RPostValue (p : PostValueData)
(** rows built by the post / comment handlers from the Content Analyzer *)
| RRow (fields : list (string * string)).

(** The keys of [data_to_insert], in the dict's order. *)
Definition categories : list string :=
  ["accounts"; "posts"; "beneficiaries"; "bodies"; "languages"; "tags";
   "comments"; "resteems"; "post_values"; "votes"; "author_rewards";
   "curation_rewards"; "beneficiary_rewards"].

Definition Batches := list (string * list Rec).

Definition empty_batches : Batches := map (fun k => (k, [])) categories.

Fixpoint lookup_batch (k : string) (bs : Batches) : list Rec :=
  match bs with
  | [] => []
  | (k', l) :: bs' => if String.eqb k k' then l else lookup_batch k bs'
  end.

(** [lst.append(r)] on the list stored under key [k]. *)
Fixpoint append_batch (k : string) (r : Rec) (bs : Batches) : Batches :=
  match bs with
  | [] => []
  | (k', l) :: bs' =>
      if String.eqb k k' then (k', l ++ [r]) :: bs'
      else (k', l) :: append_batch k r bs'
  end.

(** The mutable locals of [stream_data] that the handlers touch. *)
Record St := mkSt {
  batches : Batches;
  acc_in_db : list string;
  crs : Group;
  brs : Group }.

Definition set_batches (b : Batches) (s : St) : St :=
  mkSt b (acc_in_db s) (crs s) (brs s).
Definition set_crs (g : Group) (s : St) : St :=
  mkSt (batches s) (acc_in_db s) g (brs s).
Definition set_brs (g : Group) (s : St) : St :=
  mkSt (batches s) (acc_in_db s) (crs s) g.

Definition M (A : Type) : Type := St -> (exn + A) * St.

Definition ret {A} (a : A) : M A := fun s => (inr a, s).
Definition raise {A} (e : exn) : M A := fun s => (inl e, s).
Definition bind {A B} (m : M A) (k : A -> M B) : M B :=
  fun s => match m s with
           | (inl e, s') => (inl e, s')
           | (inr a, s') => k a s'
           end.
Definition get_state : M St := fun s => (inr s, s).
Definition modify (f : St -> St) : M unit := fun s => (inr tt, f s).
Definition lift {A} (r : exn + A) : M A :=
  fun s => match r with inl e => (inl e, s) | inr a => (inr a, s) end.

Notation "x <- m ;; k" := (bind m (fun x => k))
  (at level 61, m at next level, right associativity).
Notation "m ;;; k" := (bind m (fun _ => k))
  (at level 61, right associativity).

Definition append_record (k : string) (r : Rec) : M unit :=
  modify (fun s => set_batches (append_batch k r (batches s)) s).

(** ** The Chain Source (external)

    [get_account] yields the parsed [created] time; [get_content] the fields
    of a post that the handlers read.  Either call may raise. *)
Record Content := mkContent {
  active_votes : list (string * Z);
  curator_payout_value : Z }.

Record Chain := mkChain {
  get_account : string -> exn + Z;
  get_content : string -> string -> exn + Content }.

(** ** Operations of the filtered stream

    One constructor per [block['type']] of the [filter_by] list, carrying the
    keys the handlers read.  [account_create] and
    [account_create_with_delegation] are streamed but never handled, so one
    constructor stands for both.  A [comment_options] extension list holds,
    per extension, its ['beneficiaries'] list of [(account, weight)]. *)
Inductive OpBody :=
| OComment (parent_author author permlink : string)
| OCommentOptions (author permlink : string) (extensions : list (list (string * Z)))
| OVote (author permlink voter : string) (weight : Z)
| OAuthorReward (author permlink : string) (vesting_payout : Z)
| OCurationReward (comment_author comment_permlink curator : string) (reward : Z)
| OCustomJson (id : string) (payload : json)
| OBenefactorReward (author permlink benefactor : string) (vesting_payout : Z)
| OAccountCreate (new_account_name : string).

Record Op := mkOp { block_num : Z; timestamp : Z; body : OpBody }.

(** [dict[k]] on a JSON object: the last binding of [k] wins, as in [json.loads]. *)
Definition obj_get (k : string) (kvs : list (string * json)) : option json :=
  fold_left (fun acc kv => if String.eqb k (fst kv) then Some (snd kv) else acc) kvs None.

Definition obj_has (k : string) (kvs : list (string * json)) : bool :=
  match obj_get k kvs with Some _ => true | None => false end.

Definition opt_str_eqb (o : option string) (x : string) : bool :=
  match o with Some y => String.eqb x y | None => false end.

Section Handlers.

(** The Chain Source client [s]. *)
Variable chain : Chain.
(** [round(float(v.replace(' SBD', '')), 2)] on the curator payout field,
    in hundredths; float parsing and rounding are not modelled further. *)
Variable round_payout : Z -> Z.
(** [get_account_followers(account, timestamp)] (HTTP, may raise). *)
Variable followers : json -> Z -> exn + Z.
(** [pp.handle_post] and [pp.handle_comment], which drive the Content
    Analyzer; none of the claims depends on their bodies. *)
Variable handle_post handle_comment : Op -> Z -> M unit.

(** *** [AccountChecker] (account.py) *)

(** The condition of [AccountChecker.check]:
    [username in acc_in_db.values or any(d['username'] == username for d in acc_list)
     or username == 'null']. *)
Definition seen (s : St) (u : string) : bool :=
  existsb (String.eqb u) (acc_in_db s)
  || existsb (fun r => match r with
                       | RAccount d => String.eqb (username d) u
                       | _ => false
                       end) (lookup_batch "accounts" (batches s))
  || String.eqb u "null".

Definition check (u : string) : M unit :=
  s <- get_state;;
  if seen s u then ret tt
  else created <- lift (get_account chain u);;
       append_record "accounts" (RAccount (mkAccount u created)).

(** *** social.py *)

Definition handle_vote (author permlink voter : string) (weight date : Z) : M unit :=
  check voter;;;
  let w := weight / 100 in
  c <- lift (get_content chain author permlink);;
  let rshares := match find (fun vr => String.eqb (fst vr) voter) (active_votes c) with
                 | Some vr => snd vr
                 | None => 0
                 end in
  append_record "votes" (RVote (mkVote author permlink voter date w rshares)).

Definition parse_resteem (id : string) (payload : json) (ts : Z) : exn + option ResteemData :=
  if String.eqb id "follow" then
    match payload with
    | JArr xs =>
        match xs with
        | [] => inl IndexError                       (* json_data[0] *)
        | x0 :: rest =>
            match x0 with
            | JStr "reblog" =>
                match rest with
                | [] => inl IndexError               (* json_data[1] *)
                | JObj kvs :: _ =>
                    if obj_has "account" kvs && obj_has "author" kvs && obj_has "permlink" kvs
                    then match obj_get "account" kvs, obj_get "author" kvs, obj_get "permlink" kvs with
                         | Some acct, Some au, Some pl =>
                             match followers acct ts with
                             | inl e => inl e
                             | inr f => inr (Some (mkResteem au pl acct f))
                             end
                         | _, _, _ => inr None
                         end
                    else inr None
                | _ :: _ => inl AttributeError       (* reblog_info.keys() *)
                end
            | _ => inr None
            end
        end
    | _ => inr None
    end
  else inr None.

(** [checker.check(resteemer)] on the JSON value of the ['account'] field;
    a non-string value is outside the account-name domain and is taken to
    raise in the Chain Source lookup. *)
Definition check_json (j : json) : M unit :=
  match j with JStr u => check u | _ => raise TypeError end.

Definition handle_resteem (id : string) (payload : json) (ts date : Z) : M unit :=
  r <- lift (parse_resteem id payload ts);;
  match r with
  | Some d => check_json (r_resteemed_by d);;; append_record "resteems" (RResteem d date)
  | None => ret tt
  end.

(** *** post.py: [handle_beneficiary] *)

Fixpoint add_beneficiaries (author permlink : string) (bens : list (string * Z)) : M unit :=
  match bens with
  | [] => ret tt
  | (b_name, weight) :: rest =>
      check b_name;;;
      append_record "beneficiaries" (RBeneficiary (mkBeneficiary author permlink b_name (weight / 100)));;;
      add_beneficiaries author permlink rest
  end.

Definition handle_beneficiary (author permlink : string) (ext : list (list (string * Z))) : M unit :=
  match ext with
  | [] => ret tt
  | bens :: _ => add_beneficiaries author permlink bens
  end.

(** *** reward.py *)

Definition handle_author_reward (author permlink : string) (vests date : Z) : M unit :=
  check author;;;
  append_record "author_rewards" (RAuthorReward (mkAuthorReward author permlink date vests)).

(** [CurationRewards.check_new_post] (and the identical
    [BeneficiaryRewards.check_new_post]). *)
Definition check_new_post (g : Group) (n_author n_permlink : string) : bool :=
  negb (opt_str_eqb (g_author g) n_author && opt_str_eqb (g_permlink g) n_permlink).

(** [CurationRewards(author, permlink, date)]. *)
Definition new_group (author permlink : string) (date : Z) : Group :=
  mkGroup (Some author) (Some permlink) (Some date) [].

(** [add_reward]: check the rewarded account, then [self.rewards.append]. *)
Definition add_reward (g : Group) (acct : string) (vests : Z) : M Group :=
  check acct;;;
  ret (mkGroup (g_author g) (g_permlink g) (g_reward_time g) (g_rewards g ++ [(acct, vests)])).

(** [handle_curation_reward].  The object bound to [crs] in [stream_data]
    is replaced only when the call returns, so the new group is committed to
    the state at the end; the appends to [curation_rewards] and
    [post_values] happen in place and survive a later exception. *)
Definition handle_curation_reward (author permlink curator : string) (reward date : Z) : M unit :=
  check author;;;
  s <- get_state;;
  let g := crs s in
  g' <- (if check_new_post g author permlink then
           match g_author g with
           | Some _ =>
               append_record "curation_rewards" (RCurationRewards g);;;
               content <- lift (get_content chain author permlink);;
               append_record "post_values"
                 (RPostValue (mkPostValue author permlink
                                (round_payout (curator_payout_value content) * 2)));;;
               ret (new_group author permlink date)
           | None => ret (new_group author permlink date)
           end
         else ret g);;
  g'' <- add_reward g' curator reward;;
  modify (set_crs g'').

Definition handle_beneficiary_reward (author permlink benefactor : string) (vests date : Z) : M unit :=
  check author;;;
  s <- get_state;;
  let g := brs s in
  g' <- (if check_new_post g author permlink then
           match g_author g with
           | Some _ => append_record "beneficiary_rewards" (RBeneficiaryRewards g);;;
                       ret (new_group author permlink date)
           | None => ret (new_group author permlink date)
           end
         else ret g);;
  g'' <- add_reward g' benefactor vests;;
  modify (set_brs g'').

(** ** The dispatch inside the retry loop of [stream_data] *)

Definition block_cutoff : Z := 84763551.

Definition dispatch (op : Op) : M unit :=
  let date := timestamp op in
  if block_num op <? block_cutoff then
    match body op with
    | OVote a p v w => handle_vote a p v w date
    | OCurationReward a p c r => handle_curation_reward a p c r date
    | OBenefactorReward a p b v => handle_beneficiary_reward a p b v date
    | _ => ret tt
    end
  else
    match body op with
    | OComment parent_author _ _ =>
        if String.eqb parent_author "" then handle_post op date else handle_comment op date
    | OCommentOptions a p ext => handle_beneficiary a p ext
    | OCustomJson id j => handle_resteem id j (timestamp op) date
    | OVote a p v w => handle_vote a p v w date
    | OAuthorReward a p v => handle_author_reward a p v date
    | OCurationReward a p c r => handle_curation_reward a p c r date
    | OBenefactorReward a p b v => handle_beneficiary_reward a p b v date
    | OAccountCreate _ => ret tt
    end.

(** The per-operation retry: on [RPCError] sleep and retry, raising once
    [attempts > 100]; [k] counts the retries still allowed.  Other
    exceptions propagate at once. *)
Fixpoint retry (k : nat) (m : M unit) (s : St) : (exn + unit) * St :=
  match m s with
  | (inl RPCError, s') =>
      match k with
      | O => (inl RPCError, s')
      | S k' => retry k' m s'
      end
  | r => r
  end.

Definition process_op (op : Op) : M unit := retry 100 (dispatch op).

End Handlers.

(** ** Persistence Sink, checkpoint files and [insert_data] (stream_blocks.py) *)

(** The Persistence Sink seen through [SteemSQL]: the log of
    [insert_multiple] invocations (procedure name and the list passed,
    serialised by [json.dumps]), whether or not they store anything; the
    usernames that [get_account_usernames] returns; and [commits p l], whether
    a call of procedure [p] on [l] is committed.  It is false when the
    connection is missing ([if not self.connection: return False]) or when
    [callproc] or [commit] raises a MySQL [Error] (caught, [return False]);
    then nothing is stored.  The stored procedures are external;
    [insert_accounts] is taken to store the usernames it is given. *)
Record Sink := mkSinkDB {
  calls : list (string * list Rec);
  db_usernames : list string;
  commits : string -> list Rec -> bool }.

(** A Sink whose database commits every call. *)
Definition mkSink (c : list (string * list Rec)) (users : list string) : Sink :=
  mkSinkDB c users (fun _ _ => true).

Definition account_names (l : list Rec) : list string :=
  flat_map (fun r => match r with RAccount a => [username a] | _ => [] end) l.

(** [SteemSQL.insert_multiple]: one invocation per call, whatever the
    length of [to_insert]; the rows are stored only when the call commits,
    and the [True]/[False] it returns is not used by [insert_data]. *)
Definition insert_multiple (sk : Sink) (procedure : string) (to_insert : list Rec) : Sink :=
  mkSinkDB (calls sk ++ [(procedure, to_insert)])
           (if commits sk procedure to_insert && String.eqb procedure "insert_accounts"
            then db_usernames sk ++ account_names to_insert
            else db_usernames sk)
           (commits sk).

(** The three checkpoint files, each holding one integer:
    [data\most_recent_block_inserted], [data\highest_block_inserted] and
    [data\most_recent_block]. *)
Record Files := mkFiles {
  most_recent_block_inserted : Z;
  highest_block_inserted : Z;
  most_recent_block : Z }.

Definition procedure_for (key : string) : string :=
  if String.eqb key "post_values" then "update_pending_post_percentiles_values"
  else String.append "insert_" key.

(** [sum(len(v) for v in data_to_insert.values())] *)
Definition total_length (d : Batches) : Z :=
  fold_right (fun kv acc => Z.of_nat (length (snd kv)) + acc) 0 d.

Definition insert_data (d : Batches) (sk : Sink) (fs : Files) (most_recent : Z)
    (length_to_insert : Z) : bool * Sink * Files :=
  if length_to_insert <=? total_length d then
    let sk' := fold_left (fun acc kv => insert_multiple acc (procedure_for (fst kv)) (snd kv)) d sk in
    let fs1 := mkFiles most_recent (highest_block_inserted fs) (most_recent_block fs) in
    let fs2 := if most_recent >? highest_block_inserted fs1
               then mkFiles most_recent most_recent (most_recent_block fs1)
               else fs1 in
    (true, sk', fs2)
  else (false, sk, fs).

(** ** [stream_data] *)

Record World := mkWorld { st : St; files : Files; sink : Sink; inserts : Z }.

Definition empty_group : Group := mkGroup None None None [].

(** After a flush: every list replaced by a fresh one, [accounts_in_db]
    re-read, and [checker.update(accounts, accounts_in_db)]. *)
Definition reset_after_flush (s : St) (sk : Sink) : St :=
  mkSt empty_batches (db_usernames sk) (crs s) (brs s).

Section Stream.

Variable chain : Chain.
Variable round_payout : Z -> Z.
Variable followers : json -> Z -> exn + Z.
Variable handle_post handle_comment : Op -> Z -> M unit.
Variable records_to_insert : Z.

(** One iteration of the [for block in blockchain.stream(...)] loop. *)
Definition stream_step (w : World) (op : Op) : (exn + unit) * World :=
  let fs := mkFiles (most_recent_block_inserted (files w)) (highest_block_inserted (files w))
                    (block_num op) in
  let '(inserted, sk, fs') :=
      insert_data (batches (st w)) (sink w) fs (block_num op) records_to_insert in
  let s := if inserted then reset_after_flush (st w) sk else st w in
  let ins := if inserted then inserts w + 1 else inserts w in
  let '(r, s') := process_op chain round_payout followers handle_post handle_comment op s in
  (r, mkWorld s' fs' sk ins).

(** The loop over the operations the stream has delivered; [inr tt] when
    they are exhausted (the real stream then blocks for the next block). *)
Fixpoint stream_run (w : World) (ops : list Op) : (exn + unit) * World :=
  match ops with
  | [] => (inr tt, w)
  | op :: ops' =>
      match stream_step w op with
      | (inl e, w') => (inl e, w')
      | (inr _, w') => stream_run w' ops'
      end
  end.

(** The state [stream_data] sets up before its loop. *)
Definition stream_init (fs : Files) (sk : Sink) : World :=
  mkWorld (mkSt empty_batches (db_usernames sk) empty_group empty_group) fs sk 0.

(** [blockchain.stream(start_block=..., filter_by=...)] *)
Variable stream : Z -> list Op.

Definition stream_data (start_block : Z) (fs : Files) (sk : Sink) : (exn + unit) * World :=
  stream_run (stream_init fs sk) (stream start_block).

End Stream.

(** ** [start_block_stream(most_recent=True)] (main.py)

    The start block is read from [most_recent_block_inserted]; the loop
    [while trying] then calls [stream_data] (line 29).  A normal return
    loops again from the same block, resetting [attempts] to 0 if it was
    positive; an [RPCError] reads the block to restart from in
    [data\most_recent_block], up to the bound of 100 outer attempts, past
    which an [RPCError] is raised; any other exception escapes.  The call
    is a parameter here: its outcome and the checkpoint files and database
    it leaves.  The result lists the block of every call. *)
Inductive Outcome := Crashed (e : exn) | OutOfFuel.

Section Outer.

Variable call : Z -> Files -> Sink -> (exn + unit) * (Files * Sink).

Fixpoint outer_loop (fuel : nat) (attempts block : Z) (fs : Files) (sk : Sink)
  : list Z * Outcome :=
  match fuel with
  | O => ([], OutOfFuel)
  | S fuel' =>
      match call block fs sk with
      | (inr _, (fs', sk')) =>
          let '(bs, o) := outer_loop fuel' (if attempts >? 0 then 0 else attempts) block fs' sk' in
          (block :: bs, o)
      | (inl RPCError, (fs', sk')) =>
          if attempts >? 100 then ([block], Crashed RPCError)
          else let '(bs, o) := outer_loop fuel' (attempts + 1) (most_recent_block fs') fs' sk' in
               (block :: bs, o)
      | (inl e, _) => ([block], Crashed e)
      end
  end.

End Outer.

(** The call of line 29,
    [stream_data(block_num, s, blck, records_to_insert=1000, config_path=config_path)]:
    [stream_data] has no parameter [config_path], so Python raises a
    [TypeError] when binding the arguments, before the body runs; no file
    and no database row is touched. *)
Definition main_stream_call (block : Z) (fs : Files) (sk : Sink) : (exn + unit) * (Files * Sink) :=
  (inl TypeError, (fs, sk)).

Definition start_block_stream (fuel : nat) (fs : Files) (sk : Sink) : list Z * Outcome :=
  outer_loop main_stream_call fuel 0 (most_recent_block_inserted fs) fs sk.

(** ** The price backfill: [get_missing_prices] (stream_prices.py)

    Dates are day numbers since 1970-01-01 and the clock counts microseconds
    since the epoch, UTC.  The trace records each [time.sleep], each call of
    the price source [yf.download] with the time it is made, and each
    [ssql.insert] with its time. *)
Module Prices.

Record PriceRow := mkPriceRow { p_open : Z; p_high : Z; p_low : Z; p_close : Z; p_volume : Z }.

Inductive Event :=
| EvSleep (us : Z)
| EvDownload (date at_ : Z)
| EvInsert (date at_ : Z).

Definition us_per_day : Z := 86400 * 1000000.

(** [datetime.combine(reward_date + timedelta(days=1), time(0, 30), tzinfo=UTC)] *)
Definition deadline (d : Z) : Z := (d + 1) * us_per_day + 30 * 60 * 1000000.

Section Backfill.

(** [yf.download("STEEM-USD", start=d, end=d+1)]: an exception, an empty
    frame ([None]) or its first row. *)
Variable download : Z -> exn + option PriceRow.
(** How long that call takes. *)
Variable download_time : Z -> Z.
(** [time.sleep] sleeps at least the requested time; the excess, as a
    function of the clock when the sleep starts. *)
Variable oversleep : Z -> Z.

(** The body of the [for reward_date in ...] loop. *)
Definition fetch_one (d now : Z) : (exn + unit) * list Event * Z :=
  let '(t, sl) := if now <? deadline d
                  then (deadline d + oversleep now, [EvSleep (deadline d - now)])
                  else (now, []) in
  let t' := t + download_time d in
  match download d with
  | inl e => (inl e, sl ++ [EvDownload d t], t')
  | inr None => (inr tt, sl ++ [EvDownload d t], t')
  | inr (Some _) => (inr tt, sl ++ [EvDownload d t; EvInsert d t'], t')
  end.

Fixpoint get_missing_prices (dates : list Z) (now : Z) : (exn + unit) * list Event * Z :=
  match dates with
  | [] => (inr tt, [], now)
  | d :: ds =>
      match fetch_one d now with
      | (inl e, ev, t) => (inl e, ev, t)
      | (inr _, ev, t) =>
          let '(r, ev', t') := get_missing_prices ds t in (r, ev ++ ev', t')
      end
  end.

End Backfill.

(** What the trace promises: a price-source call is never made before the
    date's availability instant, and an insert only follows a returned row. *)
Definition ok_event (download : Z -> exn + option PriceRow) (e : Event) : Prop :=
  match e with
  | EvSleep _ => True
  | EvDownload d t => deadline d <= t
  | EvInsert d _ => exists row, download d = inr (Some row)
  end.

Definition is_insert (e : Event) : bool :=
  match e with EvInsert _ _ => true | _ => false end.

Definition demo_download (d : Z) : exn + option PriceRow :=
  if d =? 20000 then inr None else inr (Some (mkPriceRow 1 2 0 1 100)).

End Prices.

(** ** Auxiliary definitions for the proofs *)

(** The batches of a state have the keys of [data_to_insert], in order. *)
Definition wf (s : St) : Prop := map fst (batches s) = categories.

(** What a step may change: the [accounts] list and nothing else. *)
Definition frame (s s' : St) : Prop :=
  map fst (batches s') = map fst (batches s) /\ acc_in_db s' = acc_in_db s /\
  crs s' = crs s /\ brs s' = brs s /\
  (forall k, k <> "accounts" -> lookup_batch k (batches s') = lookup_batch k (batches s)).

(** ** The curation aggregator as a transition function *)

Definition add_to (g : Group) (c : string) (r : Z) : Group :=
  mkGroup (g_author g) (g_permlink g) (g_reward_time g) (g_rewards g ++ [(c, r)]).

(** The groups closed and the group left open by one curation-reward event,
    following the branches of [handle_curation_reward]. *)
Definition cr_next (g : Group) (a p c : string) (r date : Z) : list Group * Group :=
  if check_new_post g a p then
    (match g_author g with Some _ => [g] | None => [] end, add_to (new_group a p date) c r)
  else ([], add_to g c r).

(** A run of curation-reward events fed to the aggregator, one
    [handle_curation_reward] call after the other. *)
Record CurationEvent := mkCE {
  ce_author : string; ce_permlink : string; ce_curator : string;
  ce_reward : Z; ce_date : Z }.

Section Feed.
Variable chain : Chain.
Variable round_payout : Z -> Z.

Fixpoint feed_curation (evs : list CurationEvent) : M unit :=
  match evs with
  | [] => ret tt
  | e :: evs' =>
      handle_curation_reward chain round_payout (ce_author e) (ce_permlink e)
        (ce_curator e) (ce_reward e) (ce_date e);;;
      feed_curation evs'
  end.

End Feed.

Fixpoint cr_fold (g : Group) (evs : list CurationEvent) : list Group * Group :=
  match evs with
  | [] => ([], g)
  | e :: evs' =>
      let '(out, g') := cr_next g (ce_author e) (ce_permlink e) (ce_curator e)
                                (ce_reward e) (ce_date e) in
      let '(out', g'') := cr_fold g' evs' in
      (out ++ out', g'')
  end.


(** ** Concrete inputs used by the examples below *)

(** A Chain Source on which every account exists and a post by [alice]
    carries a curator payout of 5.00 SBD, any other post 9.00 SBD. *)
Definition demo_chain : Chain :=
  mkChain (fun _ => inr 0)
          (fun a _ => inr (mkContent [] (if String.eqb a "alice" then 500 else 900))).

(** [round(..., 2)] on values already given in hundredths. *)
Definition demo_round (v : Z) : Z := v.

Definition demo_state : St := mkSt empty_batches [] empty_group empty_group.

(** A vote of block 90000000, past the cutoff. *)
Definition demo_late_block : Z := 90000000.

Definition demo_known : St :=
  mkSt empty_batches ["alice"] empty_group empty_group.

(** [demo_known] after [check("bob")]: ["bob"] is waiting in [accounts]. *)
Definition demo_pending : St := snd (check demo_chain "bob" demo_known).

Definition demo_followers (_ : json) (_ : Z) : exn + Z := inr 0.
Definition demo_handler (_ : Op) (_ : Z) : M unit := ret tt.

(** A Chain Source whose content lookups for posts of [down] keep failing. *)
Definition demo_failing_chain : Chain :=
  mkChain (fun _ => inr 0)
          (fun a _ => if String.eqb a "down" then inl RPCError else inr (mkContent [] 0)).

(** Three votes, at blocks 90, 93 and 96; the stream from block [b] yields
    those at or after [b]. *)
Definition demo_stream (b : Z) : list Op :=
  filter (fun op => b <=? block_num op)
    [mkOp 90 1 (OVote "alice" "pa" "v1" 10000);
     mkOp 93 2 (OVote "alice" "pa" "v2" 5000);
     mkOp 96 3 (OVote "down" "pd" "v3" 10000)].

(** ** More of the pipeline *)

(** *** The beneficiary aggregator fed a run of events

    A [comment_benefactor_reward] event carries the same fields as a
    curation-reward event ([ce_curator] is the benefactor, [ce_reward] the
    vests), so the same record type describes a run of them. *)
Section FeedBen.
Variable chain : Chain.

Fixpoint feed_beneficiary (evs : list CurationEvent) : M unit :=
  match evs with
  | [] => ret tt
  | e :: evs' =>
      handle_beneficiary_reward chain (ce_author e) (ce_permlink e)
        (ce_curator e) (ce_reward e) (ce_date e);;;
      feed_beneficiary evs'
  end.

End FeedBen.

(** The records [handle_beneficiary] builds from one ['beneficiaries'] list. *)
Definition ben_records (author permlink : string) (bens : list (string * Z)) : list Rec :=
  map (fun bw => RBeneficiary (mkBeneficiary author permlink (fst bw) (snd bw / 100))) bens.

(** *** The last-seen block pointer (stream_blocks.py) *)

(** The operations a run of the stream loop gets through: all of them, or
    those up to and including the one whose handler raised. *)
Fixpoint ops_reached chain round_payout followers handle_post handle_comment n
    (w : World) (ops : list Op) : list Op :=
  match ops with
  | [] => []
  | op :: ops' =>
      match stream_step chain round_payout followers handle_post handle_comment n w op with
      | (inl _, _) => [op]
      | (inr _, w') => op :: ops_reached chain round_payout followers handle_post handle_comment n w' ops'
      end
  end.

(** *** [stream_prices]: the retry around [get_missing_prices]

    [run i] is the outcome of the [get_missing_prices(ssql)] call made while
    [attempts = i].  The result lists the [attempts] value of every call;
    [None] when [fuel] runs out first.  On the 102nd failure the code
    executes [raise (f'...')], raising a [str], which Python refuses with a
    [TypeError]. *)
Fixpoint price_attempts (fuel : nat) (attempts : Z) (run : Z -> exn + unit)
  : option ((exn + unit) * list Z) :=
  match fuel with
  | O => None
  | S f =>
      match run attempts with
      | inr _ => Some (inr tt, [attempts])
      | inl _ =>
          if attempts >? 100 then Some (inl TypeError, [attempts])
          else match price_attempts f (attempts + 1) run with
               | Some (r, l) => Some (r, attempts :: l)
               | None => None
               end
      end
  end.

(** The dates of the price-source calls and of the inserts of a trace. *)
Definition download_dates (evs : list Prices.Event) : list Z :=
  flat_map (fun e => match e with Prices.EvDownload d _ => [d] | _ => [] end) evs.

Definition insert_dates (evs : list Prices.Event) : list Z :=
  flat_map (fun e => match e with Prices.EvInsert d _ => [d] | _ => [] end) evs.

Definition has_row (download : Z -> exn + option Prices.PriceRow) (d : Z) : bool :=
  match download d with inr (Some _) => true | _ => false end.

(** ** [find_first_block_on_date] (steemutils/block_lookup.py)

    [block_ts n] is [get_block_timestamp(s, n)]: [None] when [get_block]
    returns [None], else the block's timestamp in seconds since the epoch.
    A date is a day number since 1970-01-01.  [fuel] bounds the iterations
    of [while low <= high]; [find_first_block_on_date] gives one more than
    the size of the search space, which each iteration shrinks. *)
Fixpoint bsearch (fuel : nat) (block_ts : Z -> option Z) (target_start target_end : Z)
    (low high : Z) (result : option Z) : option Z :=
  match fuel with
  | O => result
  | S f =>
      if low <=? high then
        let mid := (low + high) / 2 in
        match block_ts mid with
        | None => bsearch f block_ts target_start target_end low (mid - 1) result
        | Some t =>
            if t <? target_start then bsearch f block_ts target_start target_end (mid + 1) high result
            else if target_end <=? t then bsearch f block_ts target_start target_end low (mid - 1) result
            else bsearch f block_ts target_start target_end low (mid - 1) (Some mid)
        end
      else result
  end.

Definition find_first_block_on_date (block_ts : Z -> option Z) (date current_block_num : Z)
  : option Z :=
  let target_start := date * 86400 in
  let target_end := target_start + 86400 in
  bsearch (S (Z.to_nat current_block_num)) block_ts target_start target_end 1 current_block_num None.

(** ** Spell checking and language grouping (steemutils/language.py) *)

Section Language.
(** [enchant.dict_exists(code)] and [enchant.Dict(code).check(word)]. *)
Variable dict_exists : string -> bool.
Variable dict_check : string -> string -> bool.
(** [[w.strip(".,!?...") for w in sentence.strip().split() if w]]. *)
Variable words_of : string -> list string.

(** [count_spelling_errors]: [(words, errors)]. *)
Definition count_spelling_errors (sentences : list string) (language_code : string) : Z * Z :=
  let dictionary := dict_exists language_code in
  fold_left (fun acc sentence =>
               let words := words_of sentence in
               let total_words := fst acc + Z.of_nat (length words) in
               if dictionary
               then (total_words,
                     snd acc + Z.of_nat (length (filter (fun w => negb (String.eqb w "")
                                                                  && negb (dict_check language_code w))
                                                        words)))
               else (total_words, -1))
            sentences (0, 0).

(** The parts of [process_html_by_language] that come from libraries:
    BeautifulSoup's text followed by [re.split(r'\n\s*\n', ...)], the test
    [not paragraph_text.strip()], [split_sentences] and [detect_language]. *)
Variable paragraphs_of : string -> list string.
Variable is_blank : string -> bool.
Variable split_sentences : string -> list string.
Variable detect_language : string -> option string.

(** [lang_counts[lang] = lang_counts.get(lang, 0) + 1]; a dict keeps
    insertion order. *)
Fixpoint bump (k : string) (m : list (string * Z)) : list (string * Z) :=
  match m with
  | [] => [(k, 1)]
  | (k', n) :: m' => if String.eqb k k' then (k', n + 1) :: m' else (k', n) :: bump k m'
  end.

(** [max(lang_counts.items(), key=lambda x: x[1])[0]]: the first item with
    the greatest count; [None] stands for the skipped empty dict. *)
Definition dominant (m : list (string * Z)) : option string :=
  match m with
  | [] => None
  | kv :: m' => Some (fst (fold_left (fun best kv' => if snd best <? snd kv' then kv' else best) m' kv))
  end.

(** [data[dominant_lang]['paragraphs'] += 1] and the [.append] of its sentences. *)
Fixpoint add_paragraph (lang : string) (sents : list string)
    (data : list (string * (Z * list string))) : list (string * (Z * list string)) :=
  match data with
  | [] => [(lang, (1, sents))]
  | (k, (n, ss)) :: data' =>
      if String.eqb lang k then (k, (n + 1, ss ++ sents)) :: data'
      else (k, (n, ss)) :: add_paragraph lang sents data'
  end.

(** One iteration of [for paragraph_text in raw_paragraphs]. *)
Definition sentence_langs (p : string) : list (string * string) :=
  flat_map (fun s => match detect_language s with Some l => [(s, l)] | None => [] end)
           (split_sentences p).

Definition process_paragraph (data : list (string * (Z * list string))) (p : string)
  : list (string * (Z * list string)) :=
  if is_blank p then data
  else
    let sl := sentence_langs p in
    let lang_counts := fold_left (fun m x => bump (snd x) m) sl [] in
    match dominant lang_counts with
    | None => data
    | Some dl => add_paragraph dl (map fst (filter (fun x => String.eqb (snd x) dl) sl)) data
    end.

(** [process_html_by_language]: per language, its paragraph count, its
    sentences and the [(words, errors)] of [count_spelling_errors]. *)
Definition process_html_by_language (html : string)
  : list (string * (Z * list string * (Z * Z))) :=
  map (fun e => (fst e, (fst (snd e), snd (snd e), count_spelling_errors (snd (snd e)) (fst e))))
      (fold_left process_paragraph (paragraphs_of html) []).

(** The paragraphs counted over all languages, and what each entry of
    the grouping carries: at least one paragraph, and a nonempty list of
    sentences, each detected as the entry's language. *)
Definition paragraph_total (data : list (string * (Z * list string))) : Z :=
  fold_right (fun e acc => fst (snd e) + acc) 0 data.

Definition group_ok (e : string * (Z * list string)) : Prop :=
  1 <= fst (snd e) /\ snd (snd e) <> [] /\
  Forall (fun s => detect_language s = Some (fst e)) (snd (snd e)).

End Language.

(** The open group of the curation aggregator: no author yet, or some
    rewards already collected. *)
Definition open_group_ok (g : Group) : Prop := g_author g = None \/ g_rewards g <> [].

(** * Properties *)

(** ** Batches *)

Lemma lookup_append_batch (k k' : string) (r : Rec) (bs : Batches) :
  lookup_batch k (append_batch k' r bs) =
  if String.eqb k k'
  then lookup_batch k bs ++ (if existsb (String.eqb k) (map fst bs) then [r] else [])
  else lookup_batch k bs.
Proof.
  induction bs as [|[k0 l] bs IH]; simpl.
  - destruct (String.eqb k k'); reflexivity.
  - destruct (String.eqb k' k0) eqn:E1.
    + apply String.eqb_eq in E1. subst k0. simpl.
      destruct (String.eqb k k'); reflexivity.
    + simpl. destruct (String.eqb k k0) eqn:E2.
      * apply String.eqb_eq in E2. subst k0.
        rewrite (String.eqb_sym k k'), E1. reflexivity.
      * rewrite IH. destruct (String.eqb k k'); reflexivity.
Qed.

Lemma keys_append_batch (k : string) (r : Rec) (bs : Batches) :
  map fst (append_batch k r bs) = map fst bs.
Proof.
  induction bs as [|[k0 l] bs IH]; simpl; [reflexivity|].
  destruct (String.eqb k k0); simpl; [reflexivity|]. rewrite IH. reflexivity.
Qed.

Lemma lookup_append_other (k k' : string) (r : Rec) (bs : Batches) :
  k <> k' -> lookup_batch k (append_batch k' r bs) = lookup_batch k bs.
Proof.
  intro Hne. rewrite lookup_append_batch.
  destruct (String.eqb k k') eqn:E; [apply String.eqb_eq in E; contradiction|reflexivity].
Qed.

Lemma lookup_append_wf (k : string) (r : Rec) (bs : Batches) :
  map fst bs = categories -> In k categories ->
  lookup_batch k (append_batch k r bs) = lookup_batch k bs ++ [r].
Proof.
  intros Hk Hin. rewrite lookup_append_batch, String.eqb_refl, Hk.
  replace (existsb (String.eqb k) categories) with true; [reflexivity|].
  symmetry. apply existsb_exists. exists k. split; [exact Hin|apply String.eqb_refl].
Qed.

Lemma frame_refl (s : St) : frame s s.
Proof. repeat split; reflexivity. Qed.

Lemma frame_trans (s1 s2 s3 : St) : frame s1 s2 -> frame s2 s3 -> frame s1 s3.
Proof.
  intros (A1 & B1 & C1 & D1 & E1) (A2 & B2 & C2 & D2 & E2).
  repeat split; try congruence. intros k Hk. rewrite E2, E1 by exact Hk. reflexivity.
Qed.

(** ** [AccountChecker.check] *)

Section Checker.
Variable chain : Chain.

Lemma check_frame (u : string) (s : St) : frame s (snd (check chain u s)).
Proof.
  unfold check, bind, get_state, ret, lift, append_record, modify. simpl.
  destruct (seen s u); simpl; [apply frame_refl|].
  destruct (get_account chain u) as [e|t]; simpl; [apply frame_refl|].
  repeat split; simpl; try reflexivity.
  - apply keys_append_batch.
  - intros k Hk. apply lookup_append_other. exact Hk.
Qed.

Lemma check_accounts (u : string) (s : St) :
  lookup_batch "accounts" (batches (snd (check chain u s))) = lookup_batch "accounts" (batches s)
  \/ exists a, lookup_batch "accounts" (batches (snd (check chain u s)))
               = lookup_batch "accounts" (batches s) ++ a.
Proof.
  unfold check, bind, get_state, ret, lift, append_record, modify. simpl.
  destruct (seen s u); simpl; [left; reflexivity|].
  destruct (get_account chain u) as [e|t]; simpl; [left; reflexivity|].
  right. rewrite lookup_append_batch. simpl. eexists. reflexivity.
Qed.

Lemma check_seen_mono (u v : string) (s : St) :
  seen s u = true -> seen (snd (check chain v s)) u = true.
Proof.
  intro H. pose proof (check_frame v s) as (_ & Hdb & _).
  unfold seen in *. rewrite Hdb.
  destruct (check_accounts v s) as [E|[a E]]; rewrite E; [exact H|].
  rewrite existsb_app. rewrite !orb_true_iff in *. tauto.
Qed.

(** If every account lookup succeeds, [check] does not raise. *)
Lemma check_ok (u : string) (s : St) :
  (forall v, exists t, get_account chain v = inr t) -> fst (check chain u s) = inr tt.
Proof.
  intro Hacc. unfold check, bind, get_state, ret, lift, append_record, modify. simpl.
  destruct (seen s u); simpl; [reflexivity|].
  destruct (Hacc u) as [t ->]. reflexivity.
Qed.

End Checker.

Section Curation.
Variable chain : Chain.
Variable round_payout : Z -> Z.

Hypothesis accounts_ok : forall v, exists t, get_account chain v = inr t.

Lemma check_step (u : string) (s : St) :
  exists s1, check chain u s = (inr tt, s1) /\ frame s s1.
Proof.
  pose proof (check_ok chain u s accounts_ok) as Hok.
  pose proof (check_frame chain u s) as Hf.
  destruct (check chain u s) as [r1 s1]. simpl in *. subst r1. eauto.
Qed.

Lemma add_reward_step (g : Group) (c : string) (r : Z) (s : St) :
  exists s1, add_reward chain g c r s = (inr (add_to g c r), s1) /\ frame s s1.
Proof.
  destruct (check_step c s) as (s1 & E & Hf).
  exists s1. unfold add_reward, bind. rewrite E. split; [reflexivity|exact Hf].
Qed.

Lemma handle_curation_reward_step (a p c : string) (r date : Z) (ct : Content) (s : St) :
  wf s -> get_content chain a p = inr ct ->
  exists s', handle_curation_reward chain round_payout a p c r date s = (inr tt, s') /\ wf s' /\
    lookup_batch "curation_rewards" (batches s') =
      lookup_batch "curation_rewards" (batches s)
      ++ map RCurationRewards (fst (cr_next (crs s) a p c r date)) /\
    crs s' = snd (cr_next (crs s) a p c r date) /\
    lookup_batch "post_values" (batches s') =
      lookup_batch "post_values" (batches s)
      ++ (if check_new_post (crs s) a p
          then match g_author (crs s) with
               | Some _ => [RPostValue (mkPostValue a p (round_payout (curator_payout_value ct) * 2))]
               | None => []
               end
          else []).
Proof.
  intros Hwf Ect.
  destruct (check_step a s) as (s1 & E1 & F1).
  pose proof F1 as (K1 & _ & C1 & _ & L1).
  unfold handle_curation_reward.
  cbv beta iota zeta delta [bind append_record modify lift ret get_state].
  rewrite E1.
  unfold cr_next. rewrite <- C1.
  destruct (check_new_post (crs s1) a p) eqn:N.
  - destruct (g_author (crs s1)) as [a0|] eqn:G.
    + rewrite Ect.
      match goal with |- context [add_reward chain ?g c r ?st] =>
        destruct (add_reward_step g c r st) as (s4 & E4 & F4); rewrite E4 end.
      pose proof F4 as (K4 & _ & C4 & _ & L4).
      eexists; split; [reflexivity|]. simpl in K4, L4.
      rewrite !keys_append_batch in K4.
      repeat split.
      * unfold wf. simpl. rewrite K4, K1. exact Hwf.
      * simpl. rewrite L4 by discriminate.
        rewrite lookup_append_other by discriminate.
        rewrite lookup_append_wf; [| rewrite K1; exact Hwf | simpl; tauto].
        rewrite L1 by discriminate. reflexivity.
      * simpl. rewrite L4 by discriminate.
        rewrite lookup_append_wf;
          [| rewrite keys_append_batch, K1; exact Hwf | simpl; tauto].
        rewrite lookup_append_other by discriminate.
        rewrite L1 by discriminate. reflexivity.
    + match goal with |- context [add_reward chain ?g c r ?st] =>
        destruct (add_reward_step g c r st) as (s4 & E4 & F4); rewrite E4 end.
      pose proof F4 as (K4 & _ & C4 & _ & L4).
      eexists; split; [reflexivity|].
      repeat split.
      * unfold wf. simpl. rewrite K4, K1. exact Hwf.
      * simpl. rewrite L4, L1 by discriminate. rewrite app_nil_r. reflexivity.
      * simpl. rewrite L4, L1 by discriminate. rewrite app_nil_r. reflexivity.
  - match goal with |- context [add_reward chain ?g c r ?st] =>
      destruct (add_reward_step g c r st) as (s4 & E4 & F4); rewrite E4 end.
    pose proof F4 as (K4 & _ & C4 & _ & L4).
    eexists; split; [reflexivity|].
    repeat split.
    * unfold wf. simpl. rewrite K4, K1. exact Hwf.
    * simpl. rewrite L4, L1 by discriminate. rewrite app_nil_r. reflexivity.
    * simpl. rewrite L4, L1 by discriminate. rewrite app_nil_r. reflexivity.
Qed.

Hypothesis content_ok : forall a p, exists ct, get_content chain a p = inr ct.

Lemma feed_curation_ok (evs : list CurationEvent) (s : St) :
  wf s ->
  exists s', feed_curation chain round_payout evs s = (inr tt, s') /\ wf s' /\
    lookup_batch "curation_rewards" (batches s') =
      lookup_batch "curation_rewards" (batches s) ++ map RCurationRewards (fst (cr_fold (crs s) evs)) /\
    crs s' = snd (cr_fold (crs s) evs).
Proof.
  revert s. induction evs as [|e evs IH]; intros s Hwf.
  - exists s. simpl. rewrite app_nil_r. repeat split; assumption || reflexivity.
  - destruct (content_ok (ce_author e) (ce_permlink e)) as [ct Ect].
    destruct (handle_curation_reward_step (ce_author e) (ce_permlink e) (ce_curator e)
                (ce_reward e) (ce_date e) ct s Hwf Ect) as (s1 & E1 & W1 & L1 & C1 & _).
    destruct (IH s1 W1) as (s2 & E2 & W2 & L2 & C2).
    exists s2. simpl. unfold bind at 1. rewrite E1.
    destruct (cr_next (crs s) (ce_author e) (ce_permlink e) (ce_curator e) (ce_reward e) (ce_date e))
      as [out g'] eqn:Ecn.
    rewrite C1 in L2, C2. simpl in L1, C2, L2.
    destruct (cr_fold g' evs) as [out' g''] eqn:Ecf. simpl in *.
    repeat split; try assumption.
    rewrite L2, L1, map_app, app_assoc. reflexivity.
Qed.

End Curation.

Lemma cr_next_same (g : Group) (a p c : string) (r date : Z) :
  g_author g = Some a -> g_permlink g = Some p ->
  cr_next g a p c r date = ([], add_to g c r).
Proof.
  intros Ha Hp. unfold cr_next, check_new_post. rewrite Ha, Hp. simpl.
  rewrite !String.eqb_refl. reflexivity.
Qed.

Lemma cr_next_diff (g : Group) (a p a' p' c : string) (r date : Z) :
  g_author g = Some a' -> g_permlink g = Some p' -> (a', p') <> (a, p) ->
  cr_next g a p c r date = ([g], add_to (new_group a p date) c r).
Proof.
  intros Ha Hp Hne. unfold cr_next, check_new_post. rewrite Ha, Hp. simpl.
  destruct (a =? a')%string eqn:Ea; destruct (p =? p')%string eqn:Ep; try reflexivity.
  apply String.eqb_eq in Ea, Ep. subst. contradiction.
Qed.

Lemma cr_next_empty (a p c : string) (r date : Z) :
  cr_next empty_group a p c r date = ([], add_to (new_group a p date) c r).
Proof. reflexivity. Qed.

Lemma insert_calls (d : Batches) (sk : Sink) :
  calls (fold_left (fun acc kv => insert_multiple acc (procedure_for (fst kv)) (snd kv)) d sk)
  = calls sk ++ map (fun kv => (procedure_for (fst kv), snd kv)) d.
Proof.
  revert sk. induction d as [|kv d IH]; intro sk; simpl.
  - rewrite app_nil_r. reflexivity.
  - rewrite IH. simpl. rewrite <- app_assoc. reflexivity.
Qed.

Lemma insert_usernames (d : Batches) (sk : Sink) :
  db_usernames (fold_left (fun acc kv => insert_multiple acc (procedure_for (fst kv)) (snd kv)) d sk)
  = db_usernames sk ++
    flat_map (fun kv => if commits sk (procedure_for (fst kv)) (snd kv)
                           && String.eqb (procedure_for (fst kv)) "insert_accounts"
                        then account_names (snd kv) else []) d.
Proof.
  revert sk. induction d as [|kv d IH]; intro sk; simpl.
  - rewrite app_nil_r. reflexivity.
  - rewrite IH. simpl.
    destruct (commits sk (procedure_for (fst kv)) (snd kv)
              && String.eqb (procedure_for (fst kv)) "insert_accounts");
      rewrite <- ?app_assoc; reflexivity.
Qed.

Lemma account_names_seen (u : string) (l : list Rec) :
  existsb (fun r => match r with RAccount d => String.eqb (username d) u | _ => false end) l = true ->
  In u (account_names l).
Proof.
  induction l as [|r l IH]; simpl; [discriminate|].
  intro H. apply orb_true_iff in H as [H|H].
  - destruct r; try discriminate. apply String.eqb_eq in H. subst. simpl. left. reflexivity.
  - apply in_or_app. right. apply IH. exact H.
Qed.

(** * The claims *)

(** ** Checks and beneficiaries *)

Lemma check_unseen_step (chain : Chain) (u : string) (s : St) :
  wf s -> seen s u = false ->
  (forall e, get_account chain u = inl e -> check chain u s = (inl e, s)) /\
  (forall t, get_account chain u = inr t ->
     check chain u s
       = (inr tt, set_batches (append_batch "accounts" (RAccount (mkAccount u t)) (batches s)) s) /\
     seen (snd (check chain u s)) u = true /\
     check chain u (snd (check chain u s)) = (inr tt, snd (check chain u s))).
Proof.
  intros Hwf Hu. unfold check, bind, get_state, lift, append_record, modify, ret.
  rewrite Hu. split.
  - intros e He. rewrite He. reflexivity.
  - intros t Ht. rewrite Ht. simpl.
    assert (Hs : seen (set_batches (append_batch "accounts" (RAccount (mkAccount u t)) (batches s)) s) u = true).
    { unfold seen. simpl. rewrite lookup_append_wf by (exact Hwf || (simpl; tauto)).
      rewrite existsb_app. simpl. rewrite String.eqb_refl.
      rewrite !orb_true_r. reflexivity. }
    split; [reflexivity|]. split; [exact Hs|]. rewrite Hs. reflexivity.
Qed.

Lemma seen_append_other (k : string) (r : Rec) (s : St) (u : string) :
  k <> "accounts" -> seen (set_batches (append_batch k r (batches s)) s) u = seen s u.
Proof.
  intro Hk. unfold seen. simpl. rewrite lookup_append_other by congruence. reflexivity.
Qed.

Lemma check_makes_seen (chain : Chain) (u : string) (s : St) :
  (forall v, exists t, get_account chain v = inr t) -> wf s ->
  seen (snd (check chain u s)) u = true.
Proof.
  intros Hacc Hwf. destruct (seen s u) eqn:Hu.
  - apply check_seen_mono. exact Hu.
  - destruct (Hacc u) as [t Ht].
    exact (proj1 (proj2 (proj2 (check_unseen_step chain u s Hwf Hu) t Ht))).
Qed.

Lemma check_wf (chain : Chain) (u : string) (s : St) : wf s -> wf (snd (check chain u s)).
Proof.
  intro Hwf. pose proof (check_frame chain u s) as (K & _). unfold wf. rewrite K. exact Hwf.
Qed.

Section Beneficiary.
Variable chain : Chain.
Hypothesis accounts_ok : forall v, exists t, get_account chain v = inr t.

Lemma add_beneficiaries_ok (a p : string) (bens : list (string * Z)) (s : St) :
  wf s ->
  exists s', add_beneficiaries chain a p bens s = (inr tt, s') /\ wf s' /\
    lookup_batch "beneficiaries" (batches s')
      = lookup_batch "beneficiaries" (batches s) ++ ben_records a p bens /\
    (forall k, k <> "accounts" -> k <> "beneficiaries" ->
       lookup_batch k (batches s') = lookup_batch k (batches s)) /\
    acc_in_db s' = acc_in_db s /\ crs s' = crs s /\ brs s' = brs s /\
    (forall u, seen s u = true -> seen s' u = true) /\
    Forall (fun bw => seen s' (fst bw) = true) bens.
Proof.
  revert s. induction bens as [|[b w] bens IH]; intros s Hwf.
  - exists s. simpl. rewrite app_nil_r. repeat split; auto.
  - destruct (check_step chain accounts_ok b s) as (s1 & E1 & F1).
    pose proof F1 as (K1 & D1 & C1 & B1 & L1).
    assert (W1 : wf s1) by (unfold wf; rewrite K1; exact Hwf).
    assert (Sb : seen s1 b = true).
    { pose proof (check_makes_seen chain b s accounts_ok Hwf) as H. rewrite E1 in H. exact H. }
    assert (M1 : forall u, seen s u = true -> seen s1 u = true).
    { intros u Hu. pose proof (check_seen_mono chain u b s Hu) as H. rewrite E1 in H. exact H. }
    set (s2 := set_batches (append_batch "beneficiaries"
                 (RBeneficiary (mkBeneficiary a p b (w / 100))) (batches s1)) s1).
    assert (W2 : wf s2) by (unfold wf, s2; simpl; rewrite keys_append_batch; exact W1).
    destruct (IH s2 W2) as (s3 & E3 & W3 & L3 & O3 & D3 & C3 & B3 & M3 & F3).
    exists s3. simpl. unfold bind at 1. rewrite E1.
    cbv beta iota zeta delta [bind append_record modify]. fold s2. rewrite E3.
    split; [reflexivity|]. split; [exact W3|].
    split; [|split; [|split; [|split; [|split; [|split]]]]].
    + rewrite L3. unfold s2. simpl. rewrite lookup_append_wf by (exact W1 || (simpl; tauto)).
      rewrite L1 by discriminate. rewrite <- app_assoc. reflexivity.
    + intros k Hk Hb. rewrite O3 by assumption. unfold s2. simpl.
      rewrite lookup_append_other by assumption. apply L1. exact Hk.
    + rewrite D3. unfold s2. simpl. exact D1.
    + rewrite C3. unfold s2. simpl. exact C1.
    + rewrite B3. unfold s2. simpl. exact B1.
    + intros u Hu. apply M3. unfold s2. rewrite seen_append_other by discriminate. apply M1. exact Hu.
    + constructor; [|exact F3]. simpl. apply M3. unfold s2.
      rewrite seen_append_other by discriminate. exact Sb.
Qed.

End Beneficiary.

(** ** C1: the PostValue record of a closing curation group *)

(** C1 (counterexample).  Curation rewards for [alice/pa] and then for
    [bob/pb], starting from the empty aggregator: the group of [alice/pa]
    closes, yet the one PostValue record appended is the one of [bob/pb]
    (9.00 SBD doubled), not [alice/pa] with 5.00 SBD doubled. *)
Lemma C1_postvalue_counterexample :
  lookup_batch "curation_rewards"
    (batches (snd (feed_curation demo_chain demo_round
                     [mkCE "alice" "pa" "carol" 10 1; mkCE "bob" "pb" "dave" 20 2] demo_state)))
  = [RCurationRewards (mkGroup (Some "alice") (Some "pa") (Some 1) [("carol", 10)])] /\
  lookup_batch "post_values"
    (batches (snd (feed_curation demo_chain demo_round
                     [mkCE "alice" "pa" "carol" 10 1; mkCE "bob" "pb" "dave" 20 2] demo_state)))
  = [RPostValue (mkPostValue "bob" "pb" 1800)] /\
  lookup_batch "post_values"
    (batches (snd (feed_curation demo_chain demo_round
                     [mkCE "alice" "pa" "carol" 10 1; mkCE "bob" "pb" "dave" 20 2] demo_state)))
  <> [RPostValue (mkPostValue "alice" "pa" 1000)].
Proof.
  vm_compute. split; [reflexivity|split; [reflexivity|discriminate]].
Qed.

(** C1 (amended).  When an incoming curation-reward event for post
    [(a, p)] closes a group with a non-null key, the closed group is
    appended to [curation_rewards] and the PostValue record appended to
    [post_values] carries the incoming key [(a, p)] and twice the rounded
    curator payout of [(a, p)] as fetched from the Chain Source. *)
Theorem curation_postvalue_incoming_key (chain : Chain) (round_payout : Z -> Z)
    (s : St) (a p c : string) (r date : Z) (ct : Content) (a0 : string) :
  (forall v, exists t, get_account chain v = inr t) ->
  wf s -> get_content chain a p = inr ct ->
  check_new_post (crs s) a p = true -> g_author (crs s) = Some a0 ->
  exists s', handle_curation_reward chain round_payout a p c r date s = (inr tt, s') /\
    lookup_batch "curation_rewards" (batches s') =
      lookup_batch "curation_rewards" (batches s) ++ [RCurationRewards (crs s)] /\
    lookup_batch "post_values" (batches s') =
      lookup_batch "post_values" (batches s)
      ++ [RPostValue (mkPostValue a p (round_payout (curator_payout_value ct) * 2))].
Proof.
  intros Hacc Hwf Ect Hnew Ha0.
  destruct (handle_curation_reward_step chain round_payout Hacc a p c r date ct s Hwf Ect)
    as (s' & E & _ & Lc & _ & Lp).
  exists s'. unfold cr_next in Lc. rewrite Hnew, Ha0 in Lc, Lp. simpl in Lc.
  repeat split; assumption.
Qed.

Lemma curation_postvalue_incoming_key_witness :
  exists s', handle_curation_reward demo_chain demo_round "bob" "pb" "dave" 20 2
               (snd (handle_curation_reward demo_chain demo_round "alice" "pa" "carol" 10 1 demo_state))
             = (inr tt, s') /\
    lookup_batch "post_values" (batches s') = [RPostValue (mkPostValue "bob" "pb" 1800)].
Proof.
  destruct (curation_postvalue_incoming_key demo_chain demo_round
              (snd (handle_curation_reward demo_chain demo_round "alice" "pa" "carol" 10 1 demo_state))
              "bob" "pb" "dave" 20 2 (mkContent [] 900) "alice")
    as (s' & E & _ & Lp).
  - intro v. exists 0. reflexivity.
  - vm_compute. reflexivity.
  - reflexivity.
  - vm_compute. reflexivity.
  - vm_compute. reflexivity.
  - exists s'. split; [exact E|]. rewrite Lp. vm_compute. reflexivity.
Defined.

(** ** C4: grouping of the keys [A,A,A,B,B,C] *)

(** C4.  Six curation-reward events with keys [A,A,A,B,B,C] fed to an empty
    aggregator append exactly two groups: [A] with the three rewards seen
    under [A], opened at the first event, then [B] with its two rewards; the
    group of [C] stays open in the aggregator and is not appended. *)
Theorem curation_groups_AAABBC (chain : Chain) (round_payout : Z -> Z) (s : St)
    (a1 p1 a2 p2 a3 p3 c1 c2 c3 c4 c5 c6 : string) (r1 r2 r3 r4 r5 r6 t1 t2 t3 t4 t5 t6 : Z) :
  (forall v, exists t, get_account chain v = inr t) ->
  (forall a p, exists ct, get_content chain a p = inr ct) ->
  wf s -> crs s = empty_group ->
  (a1, p1) <> (a2, p2) -> (a2, p2) <> (a3, p3) ->
  exists s',
    feed_curation chain round_payout
      [mkCE a1 p1 c1 r1 t1; mkCE a1 p1 c2 r2 t2; mkCE a1 p1 c3 r3 t3;
       mkCE a2 p2 c4 r4 t4; mkCE a2 p2 c5 r5 t5; mkCE a3 p3 c6 r6 t6] s = (inr tt, s') /\
    lookup_batch "curation_rewards" (batches s') =
      lookup_batch "curation_rewards" (batches s) ++
      [RCurationRewards (mkGroup (Some a1) (Some p1) (Some t1) [(c1, r1); (c2, r2); (c3, r3)]);
       RCurationRewards (mkGroup (Some a2) (Some p2) (Some t4) [(c4, r4); (c5, r5)])] /\
    crs s' = mkGroup (Some a3) (Some p3) (Some t6) [(c6, r6)].
Proof.
  intros Hacc Hct Hwf Hcrs H12 H23.
  assert (F : cr_fold empty_group
                [mkCE a1 p1 c1 r1 t1; mkCE a1 p1 c2 r2 t2; mkCE a1 p1 c3 r3 t3;
                 mkCE a2 p2 c4 r4 t4; mkCE a2 p2 c5 r5 t5; mkCE a3 p3 c6 r6 t6]
              = ([mkGroup (Some a1) (Some p1) (Some t1) [(c1, r1); (c2, r2); (c3, r3)];
                  mkGroup (Some a2) (Some p2) (Some t4) [(c4, r4); (c5, r5)]],
                 mkGroup (Some a3) (Some p3) (Some t6) [(c6, r6)])).
  { cbn [cr_fold ce_author ce_permlink ce_curator ce_reward ce_date].
    rewrite cr_next_empty.
    rewrite cr_next_same by reflexivity.
    rewrite cr_next_same by reflexivity.
    rewrite (cr_next_diff _ a2 p2 a1 p1) by (reflexivity || exact H12).
    rewrite cr_next_same by reflexivity.
    rewrite (cr_next_diff _ a3 p3 a2 p2) by (reflexivity || exact H23).
    reflexivity. }
  destruct (feed_curation_ok chain round_payout Hacc Hct
              [mkCE a1 p1 c1 r1 t1; mkCE a1 p1 c2 r2 t2; mkCE a1 p1 c3 r3 t3;
               mkCE a2 p2 c4 r4 t4; mkCE a2 p2 c5 r5 t5; mkCE a3 p3 c6 r6 t6] s Hwf)
    as (s' & E & _ & L & C).
  exists s'. rewrite Hcrs, F in L, C. simpl in L, C.
  repeat split; assumption.
Qed.

Lemma curation_groups_AAABBC_witness :
  exists s',
    feed_curation demo_chain demo_round
      [mkCE "alice" "pa" "v1" 11 1; mkCE "alice" "pa" "v2" 12 2; mkCE "alice" "pa" "v3" 13 3;
       mkCE "bob" "pb" "v4" 14 4; mkCE "bob" "pb" "v5" 15 5; mkCE "carol" "pc" "v6" 16 6]
      demo_state = (inr tt, s') /\
    lookup_batch "curation_rewards" (batches s') =
      lookup_batch "curation_rewards" (batches demo_state) ++
      [RCurationRewards (mkGroup (Some "alice") (Some "pa") (Some 1) [("v1", 11); ("v2", 12); ("v3", 13)]);
       RCurationRewards (mkGroup (Some "bob") (Some "pb") (Some 4) [("v4", 14); ("v5", 15)])] /\
    crs s' = mkGroup (Some "carol") (Some "pc") (Some 6) [("v6", 16)].
Proof.
  apply (curation_groups_AAABBC demo_chain demo_round demo_state
           "alice" "pa" "bob" "pb" "carol" "pc" "v1" "v2" "v3" "v4" "v5" "v6"
           11 12 13 14 15 16 1 2 3 4 5 6).
  - intro v. exists 0. reflexivity.
  - intros a p. eexists. reflexivity.
  - vm_compute. reflexivity.
  - reflexivity.
  - discriminate.
  - discriminate.
Defined.

(** ** C3: vote weight and beneficiary percentage *)

(** C3 (counterexample).  A vote of raw weight -4999 is recorded with
    weight -50 ([//] floors), not -49. *)
Lemma C3_vote_weight_counterexample :
  lookup_batch "votes" (batches (snd (handle_vote demo_chain "alice" "pa" "carol" (-4999) 7 demo_state)))
  = [RVote (mkVote "alice" "pa" "carol" 7 (-50) 0)] /\
  lookup_batch "votes" (batches (snd (handle_vote demo_chain "alice" "pa" "carol" (-4999) 7 demo_state)))
  <> [RVote (mkVote "alice" "pa" "carol" 7 (-49) 0)].
Proof. vm_compute. split; [reflexivity|discriminate]. Qed.

(** C3 (amended).  A vote is recorded with weight [w // 100], Python's floor
    division: the greatest [q] with [100 * q <= w].  So 2550 gives 25 and
    -4999 gives -50.  [handle_beneficiary] computes each beneficiary's
    percentage the same way, [ben['weight'] // 100], for every beneficiary
    of the first extension. *)
Theorem vote_weight_floor_div (chain : Chain) (s : St) (a p v : string) (w date : Z) (ct : Content) :
  (forall u, exists t, get_account chain u = inr t) ->
  wf s -> get_content chain a p = inr ct ->
  exists s' rs, handle_vote chain a p v w date s = (inr tt, s') /\
    lookup_batch "votes" (batches s') =
      lookup_batch "votes" (batches s) ++ [RVote (mkVote a p v date (w / 100) rs)] /\
    100 * (w / 100) <= w < 100 * (w / 100) + 100 /\
    2550 / 100 = 25 /\ -4999 / 100 = -50 /\
    (forall bens rest, exists s'', handle_beneficiary chain a p (bens :: rest) s = (inr tt, s'') /\
       lookup_batch "beneficiaries" (batches s'') =
         lookup_batch "beneficiaries" (batches s)
         ++ map (fun bw => RBeneficiary (mkBeneficiary a p (fst bw) (snd bw / 100))) bens /\
       Forall (fun bw => 100 * (snd bw / 100) <= snd bw < 100 * (snd bw / 100) + 100) bens).
Proof.
  intros Hacc Hwf Ect.
  destruct (check_step chain Hacc v s) as (s1 & E1 & F1).
  pose proof F1 as (K1 & _ & _ & _ & L1).
  unfold handle_vote.
  cbv beta iota zeta delta [bind append_record modify lift ret].
  rewrite E1, Ect.
  eexists. eexists. split; [reflexivity|].
  pose proof (Z.div_mod w 100) as Hdm. pose proof (Z.mod_pos_bound w 100) as Hmb.
  split; [|split; [lia|split; [reflexivity|split; [reflexivity|]]]].
  - simpl. rewrite lookup_append_wf; [| rewrite K1; exact Hwf | simpl; tauto].
    rewrite L1 by discriminate. reflexivity.
  - intros bens rest.
    destruct (add_beneficiaries_ok chain Hacc a p bens s Hwf) as (s'' & E & _ & L & _).
    exists s''. split; [exact E|]. split; [exact L|].
    apply Forall_forall. intros bw _.
    pose proof (Z.div_mod (snd bw) 100) as Hd. pose proof (Z.mod_pos_bound (snd bw) 100) as Hb. lia.
Qed.

Lemma vote_weight_floor_div_witness :
  (exists s' rs, handle_vote demo_chain "alice" "pa" "carol" (-4999) 7 demo_state = (inr tt, s') /\
    lookup_batch "votes" (batches s') =
      lookup_batch "votes" (batches demo_state) ++ [RVote (mkVote "alice" "pa" "carol" 7 (-4999 / 100) rs)]) /\
  (exists s'', handle_beneficiary demo_chain "alice" "pa" [[("bob", 2550); ("carol", -4999)]] demo_state
                 = (inr tt, s'') /\
    lookup_batch "beneficiaries" (batches s'')
      = [RBeneficiary (mkBeneficiary "alice" "pa" "bob" 25);
         RBeneficiary (mkBeneficiary "alice" "pa" "carol" (-50))]).
Proof.
  destruct (vote_weight_floor_div demo_chain demo_state "alice" "pa" "carol" (-4999) 7 (mkContent [] 500))
    as (s' & rs & E & L & _ & _ & _ & B).
  - intro u. exists 0. reflexivity.
  - vm_compute. reflexivity.
  - reflexivity.
  - split; [exists s', rs; split; assumption|].
    destruct (B [("bob", 2550); ("carol", -4999)] []) as (s'' & E' & L' & _).
    exists s''. split; [exact E'|]. rewrite L'. reflexivity.
Defined.

(** ** C5: the flush of [insert_data] *)

(** C5 (counterexample).  One account record and a threshold of 1: the
    flush calls the Persistence Sink once for each of the 13 categories,
    the 12 empty ones included, not only once for [accounts]. *)
Lemma C5_flush_counterexample :
  calls (snd (fst (insert_data (append_batch "accounts" (RAccount (mkAccount "alice" 0)) empty_batches)
                               (mkSink [] []) (mkFiles 1 1 1) 9 1))) =
  [("insert_accounts", [RAccount (mkAccount "alice" 0)]); ("insert_posts", []);
   ("insert_beneficiaries", []); ("insert_bodies", []); ("insert_languages", []);
   ("insert_tags", []); ("insert_comments", []); ("insert_resteems", []);
   ("update_pending_post_percentiles_values", []); ("insert_votes", []);
   ("insert_author_rewards", []); ("insert_curation_rewards", []);
   ("insert_beneficiary_rewards", [])] /\
  length (calls (snd (fst (insert_data (append_batch "accounts" (RAccount (mkAccount "alice" 0)) empty_batches)
                                       (mkSink [] []) (mkFiles 1 1 1) 9 1)))) <> 1%nat.
Proof. vm_compute. split; [reflexivity|discriminate]. Qed.

(** C5 (amended).  Once the total record count reaches the threshold,
    [insert_data] returns [True], makes exactly one Sink call per category
    of the dict, in the dict's order and empty categories included, with
    [update_pending_post_percentiles_values] for [post_values] and
    [insert_<key>] for every other key, and writes the supplied block number
    to the resumable checkpoint; below the threshold it returns [False] and
    changes neither the Sink nor the files. *)
Theorem insert_data_flush (d : Batches) (sk : Sink) (fs : Files) (b n : Z) :
  (n <= total_length d ->
     fst (fst (insert_data d sk fs b n)) = true /\
     calls (snd (fst (insert_data d sk fs b n)))
       = calls sk ++ map (fun kv => (procedure_for (fst kv), snd kv)) d /\
     most_recent_block_inserted (snd (insert_data d sk fs b n)) = b) /\
  (total_length d < n -> insert_data d sk fs b n = (false, sk, fs)) /\
  procedure_for "post_values" = "update_pending_post_percentiles_values" /\
  (forall k, k <> "post_values" -> procedure_for k = String.append "insert_" k).
Proof.
  split; [|split; [|split]].
  - intro H. unfold insert_data. replace (n <=? total_length d) with true by (symmetry; apply Z.leb_le; exact H).
    simpl. rewrite insert_calls. split; [reflexivity|split; [reflexivity|]].
    destruct (b >? highest_block_inserted fs); reflexivity.
  - intro H. unfold insert_data. replace (n <=? total_length d) with false by (symmetry; apply Z.leb_gt; exact H).
    reflexivity.
  - reflexivity.
  - intros k Hk. unfold procedure_for. destruct (String.eqb k "post_values") eqn:E; [|reflexivity].
    apply String.eqb_eq in E. contradiction.
Qed.

Lemma insert_data_flush_witness :
  1 <= total_length (append_batch "accounts" (RAccount (mkAccount "alice" 0)) empty_batches) /\
  fst (fst (insert_data (append_batch "accounts" (RAccount (mkAccount "alice" 0)) empty_batches)
                        (mkSink [] []) (mkFiles 1 1 1) 9 1)) = true /\
  calls (snd (fst (insert_data (append_batch "accounts" (RAccount (mkAccount "alice" 0)) empty_batches)
                               (mkSink [] []) (mkFiles 1 1 1) 9 1)))
    = calls (mkSink [] []) ++ map (fun kv => (procedure_for (fst kv), snd kv))
                              (append_batch "accounts" (RAccount (mkAccount "alice" 0)) empty_batches) /\
  most_recent_block_inserted (snd (insert_data (append_batch "accounts" (RAccount (mkAccount "alice" 0)) empty_batches)
                                               (mkSink [] []) (mkFiles 1 1 1) 9 1)) = 9.
Proof.
  split; [vm_compute; discriminate|].
  apply (proj1 (insert_data_flush (append_batch "accounts" (RAccount (mkAccount "alice" 0)) empty_batches)
                  (mkSink [] []) (mkFiles 1 1 1) 9 1)).
  vm_compute. discriminate.
Defined.

(** ** C6: the account dedup check *)

Lemma flat_map_no_accounts (sk : Sink) (rest : Batches) :
  forallb (fun k => negb (String.eqb (procedure_for k) "insert_accounts")) (map fst rest) = true ->
  flat_map (fun kv => if commits sk (procedure_for (fst kv)) (snd kv)
                         && String.eqb (procedure_for (fst kv)) "insert_accounts"
                      then account_names (snd kv) else []) rest = [].
Proof.
  induction rest as [|[k l] rest IH]; simpl; [reflexivity|].
  intro H. apply andb_true_iff in H as [Hk H].
  apply negb_true_iff in Hk. rewrite Hk, andb_false_r. exact (IH H).
Qed.

(** What a flush leaves in the database's usernames: the accounts batch
    is added when, and only when, its [insert_accounts] call commits. *)
Lemma flush_usernames (s : St) (sk : Sink) :
  wf s ->
  db_usernames (fold_left (fun acc kv => insert_multiple acc (procedure_for (fst kv)) (snd kv))
                          (batches s) sk)
  = db_usernames sk ++
    (if commits sk "insert_accounts" (lookup_batch "accounts" (batches s))
     then account_names (lookup_batch "accounts" (batches s)) else []).
Proof.
  intro Hwf. rewrite insert_usernames. unfold wf in Hwf.
  destruct (batches s) as [|[k0 l0] rest]; [discriminate|].
  injection Hwf as Hk0 Hrest. subst k0.
  simpl. rewrite flat_map_no_accounts by (rewrite Hrest; reflexivity).
  rewrite andb_true_r, app_nil_r. reflexivity.
Qed.

Lemma seen_exact (s : St) (u : string) :
  seen s u = true ->
  u = "null" \/ In u (acc_in_db s) \/ In u (account_names (lookup_batch "accounts" (batches s))).
Proof.
  unfold seen. rewrite !orb_true_iff. intros [[Hdb|Hacc]|Hn].
  - right. left. apply existsb_exists in Hdb as (x & Hx & Ex).
    apply String.eqb_eq in Ex. subst. exact Hx.
  - right. right. apply account_names_seen. exact Hacc.
  - left. apply String.eqb_eq. exact Hn.
Qed.

(** C6 (counterexample).  With ["alice"] already known, ["alice"] is seen
    but ["Alice"] is not: [check("Alice")] looks the account up and appends
    an Account record for it.  And with ["bob"] waiting in [accounts], a
    flush whose [insert_accounts] call does not commit still returns [True];
    the usernames re-read from the database lack ["bob"], so ["bob"] is no
    longer seen and a later [check("bob")] appends a second Account record
    for it. *)
Lemma C6_case_counterexample :
  seen demo_known "alice" = true /\ seen demo_known "Alice" = false /\
  lookup_batch "accounts" (batches (snd (check demo_chain "Alice" demo_known)))
    = [RAccount (mkAccount "Alice" 0)] /\
  seen demo_pending "bob" = true /\
  fst (fst (insert_data (batches demo_pending) (mkSinkDB [] ["alice"] (fun _ _ => false))
                        (mkFiles 1 1 1) 5 1)) = true /\
  seen (reset_after_flush demo_pending
          (snd (fst (insert_data (batches demo_pending) (mkSinkDB [] ["alice"] (fun _ _ => false))
                                 (mkFiles 1 1 1) 5 1)))) "bob" = false /\
  lookup_batch "accounts"
    (batches (snd (check demo_chain "bob"
                     (reset_after_flush demo_pending
                        (snd (fst (insert_data (batches demo_pending)
                                               (mkSinkDB [] ["alice"] (fun _ _ => false))
                                               (mkFiles 1 1 1) 5 1)))))))
    = [RAccount (mkAccount "bob" 0)].
Proof. vm_compute. repeat split. Qed.

(** C6 (amended).  Usernames compare by exact, case-sensitive equality: a
    name other than ["null"] that is not, character for character, among
    the usernames read from the database or the pending Account records is
    not seen, and [check] looks it up and appends its own Account record.
    Once [seen u] holds it still holds after any later [check].  After a
    flush it still holds when the [insert_accounts] call commits; when that
    call does not commit (no connection, or a MySQL [Error]),
    [insert_multiple] returns [False], [insert_data] still returns [True],
    and a name that was only pending is no longer seen.  The sentinel
    ["null"] is always seen, and [check "null"] leaves the state unchanged:
    no lookup and no Account record. *)
Theorem seen_persists (chain : Chain) (s : St) (u v : string) (sk sk' : Sink) (fs fs' : Files) (b n : Z) :
  seen s u = true -> wf s -> incl (acc_in_db s) (db_usernames sk) ->
  insert_data (batches s) sk fs b n = (true, sk', fs') ->
  seen (snd (check chain v s)) u = true /\
  (commits sk "insert_accounts" (lookup_batch "accounts" (batches s)) = true ->
     seen (reset_after_flush s sk') u = true) /\
  (commits sk "insert_accounts" (lookup_batch "accounts" (batches s)) = false ->
     ~ In u (db_usernames sk) -> u <> "null" ->
     seen (reset_after_flush s sk') u = false) /\
  (forall u' t, u' <> "null" -> ~ In u' (acc_in_db s) ->
     ~ In u' (account_names (lookup_batch "accounts" (batches s))) ->
     get_account chain u' = inr t ->
     seen s u' = false /\
     lookup_batch "accounts" (batches (snd (check chain u' s)))
       = lookup_batch "accounts" (batches s) ++ [RAccount (mkAccount u' t)]) /\
  seen s "null" = true /\
  check chain "null" s = (inr tt, s).
Proof.
  intros Hs Hwf Hincl Hins.
  assert (Hnull : seen s "null" = true).
  { unfold seen. rewrite !orb_true_iff. right. reflexivity. }
  assert (Hsk : db_usernames sk' = db_usernames sk ++
                  (if commits sk "insert_accounts" (lookup_batch "accounts" (batches s))
                   then account_names (lookup_batch "accounts" (batches s)) else [])).
  { unfold insert_data in Hins.
    destruct (n <=? total_length (batches s)); [|discriminate].
    injection Hins as <- _. apply flush_usernames. exact Hwf. }
  split; [apply check_seen_mono; exact Hs|].
  split; [|split; [|split; [|split; [exact Hnull|]]]].
  - intros Hc. rewrite Hc in Hsk.
    unfold seen at 1. simpl. rewrite Hsk. rewrite !orb_true_iff.
    destruct (seen_exact s u Hs) as [Hn|[Hdb|Hacc]].
    + right. apply String.eqb_eq. exact Hn.
    + left. left. apply existsb_exists. exists u. split; [|apply String.eqb_refl].
      apply in_or_app. left. apply Hincl. exact Hdb.
    + left. left. apply existsb_exists. exists u. split; [|apply String.eqb_refl].
      apply in_or_app. right. exact Hacc.
  - intros Hc Hndb Hnn. rewrite Hc, app_nil_r in Hsk.
    unfold seen. simpl. rewrite Hsk.
    destruct (existsb (String.eqb u) (db_usernames sk)) eqn:Ed.
    + exfalso. apply existsb_exists in Ed as (x & Hx & Ex).
      apply String.eqb_eq in Ex. subst. exact (Hndb Hx).
    + destruct (String.eqb u "null") eqn:En; [apply String.eqb_eq in En; contradiction|].
      reflexivity.
  - intros u' t Hn Hdb Hacc Ht.
    assert (Hu' : seen s u' = false).
    { destruct (seen s u') eqn:E; [|reflexivity].
      destruct (seen_exact s u' E) as [H|[H|H]]; contradiction. }
    split; [exact Hu'|].
    rewrite (proj1 (proj2 (check_unseen_step chain u' s Hwf Hu') t Ht)). simpl.
    apply lookup_append_wf; [exact Hwf|simpl; tauto].
  - unfold check, bind, get_state. rewrite Hnull. reflexivity.
Qed.

Lemma seen_persists_witness :
  seen (reset_after_flush demo_pending
          (snd (fst (insert_data (batches demo_pending) (mkSink [] ["alice"]) (mkFiles 1 1 1) 5 1))))
       "bob" = true /\
  seen (reset_after_flush demo_pending
          (snd (fst (insert_data (batches demo_pending) (mkSinkDB [] ["alice"] (fun _ _ => false))
                                 (mkFiles 1 1 1) 5 1))))
       "bob" = false /\
  lookup_batch "accounts" (batches (snd (check demo_chain "Bob" demo_pending)))
    = lookup_batch "accounts" (batches demo_pending) ++ [RAccount (mkAccount "Bob" 0)].
Proof.
  assert (Hs : seen demo_pending "bob" = true) by (vm_compute; reflexivity).
  assert (Hw : wf demo_pending) by (vm_compute; reflexivity).
  assert (Hi : incl (acc_in_db demo_pending) ["alice"]) by (change (incl ["alice"] ["alice"]); apply incl_refl).
  destruct (seen_persists demo_chain demo_pending "bob" "carol" (mkSink [] ["alice"])
              (snd (fst (insert_data (batches demo_pending) (mkSink [] ["alice"]) (mkFiles 1 1 1) 5 1)))
              (mkFiles 1 1 1)
              (snd (insert_data (batches demo_pending) (mkSink [] ["alice"]) (mkFiles 1 1 1) 5 1)) 5 1
              Hs Hw Hi ltac:(vm_compute; reflexivity))
    as (_ & T & _ & C & _).
  destruct (seen_persists demo_chain demo_pending "bob" "carol" (mkSinkDB [] ["alice"] (fun _ _ => false))
              (snd (fst (insert_data (batches demo_pending) (mkSinkDB [] ["alice"] (fun _ _ => false))
                                     (mkFiles 1 1 1) 5 1)))
              (mkFiles 1 1 1)
              (snd (insert_data (batches demo_pending) (mkSinkDB [] ["alice"] (fun _ _ => false))
                                (mkFiles 1 1 1) 5 1)) 5 1
              Hs Hw Hi ltac:(vm_compute; reflexivity))
    as (_ & _ & F & _).
  split; [exact (T eq_refl)|split].
  - apply F; [reflexivity| |discriminate]. intros [H|[]]. discriminate.
  - apply (C "Bob" 0); [discriminate| | |reflexivity].
    + intros [H|[]]. discriminate.
    + vm_compute. intros [H|[]]. discriminate.
Defined.

(** ** C7: resteem parsing *)

(** C7 (code defect).  A [follow] custom-JSON payload that is an array but
    too short, or whose second element is not an object, is not ignored:
    [parse_resteem] raises ([json_data[0]] or [json_data[1]] out of range,
    or [.keys()] on a string), the exception is not an [RPCError], so the
    retry loop of [stream_data] passes it on. *)
Theorem resteem_malformed_raises (chain : Chain) (round_payout : Z -> Z)
    (followers : json -> Z -> exn + Z) (handle_post handle_comment : Op -> Z -> M unit)
    (s : St) (ts date : Z) :
  handle_resteem chain followers "follow" (JArr [JStr "reblog"]) ts date s = (inl IndexError, s) /\
  handle_resteem chain followers "follow" (JArr []) ts date s = (inl IndexError, s) /\
  handle_resteem chain followers "follow" (JArr [JStr "reblog"; JStr "x"]) ts date s
    = (inl AttributeError, s) /\
  process_op chain round_payout followers handle_post handle_comment
    (mkOp demo_late_block ts (OCustomJson "follow" (JArr [JStr "reblog"]))) s = (inl IndexError, s).
Proof. repeat split; reflexivity. Qed.

(** ** C8: the checkpoint files *)

Lemma insert_data_files (d : Batches) (sk : Sink) (fs : Files) (b n : Z) :
  most_recent_block_inserted (snd (insert_data d sk fs b n))
    = (if n <=? total_length d then b else most_recent_block_inserted fs) /\
  highest_block_inserted (snd (insert_data d sk fs b n))
    = (if (n <=? total_length d) && (b >? highest_block_inserted fs)
       then b else highest_block_inserted fs).
Proof.
  unfold insert_data. destruct (n <=? total_length d); simpl; [|split; reflexivity].
  destruct (b >? highest_block_inserted fs); split; reflexivity.
Qed.

Lemma stream_step_files chain round_payout followers handle_post handle_comment n (w : World) (op : Op) :
  files (snd (stream_step chain round_payout followers handle_post handle_comment n w op)) =
  snd (insert_data (batches (st w)) (sink w)
         (mkFiles (most_recent_block_inserted (files w)) (highest_block_inserted (files w)) (block_num op))
         (block_num op) n).
Proof.
  unfold stream_step.
  destruct (insert_data _ _ _ _ _) as [[ins sk] fs'].
  destruct (process_op _ _ _ _ _ _ _). reflexivity.
Qed.

Lemma stream_run_files chain round_payout followers handle_post handle_comment n (w : World) (ops : list Op) (c : Z) :
  c <= most_recent_block_inserted (files w) ->
  Forall (fun op => c <= block_num op) ops ->
  c <= most_recent_block_inserted (files (snd (stream_run chain round_payout followers handle_post handle_comment n w ops))) /\
  highest_block_inserted (files w)
    <= highest_block_inserted (files (snd (stream_run chain round_payout followers handle_post handle_comment n w ops))).
Proof.
  revert w. induction ops as [|op ops IH]; intros w Hc Hops; simpl; [lia|].
  inversion Hops as [|? ? Hop Hrest]; subst.
  pose proof (stream_step_files chain round_payout followers handle_post handle_comment n w op) as Ef.
  destruct (insert_data_files (batches (st w)) (sink w)
              (mkFiles (most_recent_block_inserted (files w)) (highest_block_inserted (files w)) (block_num op))
              (block_num op) n) as [Em Eh].
  rewrite <- Ef in Em, Eh. simpl in Em, Eh.
  assert (Hstep : c <= most_recent_block_inserted (files (snd (stream_step chain round_payout followers handle_post handle_comment n w op))) /\
                  highest_block_inserted (files w) <= highest_block_inserted (files (snd (stream_step chain round_payout followers handle_post handle_comment n w op)))).
  { rewrite Em, Eh.
    destruct (n <=? total_length (batches (st w))); simpl; [|lia].
    destruct (block_num op >? highest_block_inserted (files w)) eqn:G; [|lia].
    apply Z.gtb_lt in G. lia. }
  destruct (stream_step chain round_payout followers handle_post handle_comment n w op) as [[e|u] w'];
    simpl in Hstep; [exact Hstep|].
  destruct (IH w') as [H1 H2]; [tauto|exact Hrest|]. lia.
Qed.

(** C8.  The high-water mark is rewritten by a flush only when the flushed
    block number exceeds the stored one, so no run of the stream loop, from
    any state, lowers it; and when the stream is restarted from the
    resumable checkpoint and yields only blocks at or after its start
    block, that checkpoint never moves below the restart point. *)
Theorem checkpoints_monotone (chain : Chain) (round_payout : Z -> Z)
    (followers : json -> Z -> exn + Z) (handle_post handle_comment : Op -> Z -> M unit)
    (n : Z) (stream : Z -> list Op) (d : Batches) (sk0 : Sink) (fs0 : Files) (b m : Z)
    (w : World) (ops : list Op) (fs : Files) (sk : Sink) :
  (forall start, Forall (fun op => start <= block_num op) (stream start)) ->
  highest_block_inserted (snd (insert_data d sk0 fs0 b m))
    = (if (m <=? total_length d) && (b >? highest_block_inserted fs0)
       then b else highest_block_inserted fs0) /\
  highest_block_inserted (files w)
    <= highest_block_inserted (files (snd (stream_run chain round_payout followers
                                              handle_post handle_comment n w ops))) /\
  most_recent_block_inserted fs
    <= most_recent_block_inserted
         (files (snd (stream_data chain round_payout followers handle_post handle_comment n stream
                        (most_recent_block_inserted fs) fs sk))).
Proof.
  intro Hstream.
  split; [apply insert_data_files|].
  split.
  - destruct (stream_run_files chain round_payout followers handle_post handle_comment n w ops
                (Z.min (most_recent_block_inserted (files w))
                       (fold_right (fun op acc => Z.min (block_num op) acc) (most_recent_block_inserted (files w)) ops)))
      as [_ H]; [lia| |exact H].
    clear. induction ops as [|op ops IH]; constructor; simpl; [lia|].
    eapply Forall_impl; [|exact IH]. intros o Ho. simpl in Ho. lia.
  - unfold stream_data.
    apply stream_run_files; [simpl; lia|apply Hstream].
Qed.

Lemma checkpoints_monotone_witness :
  (forall start, Forall (fun op => start <= block_num op) (demo_stream start)) /\
  highest_block_inserted (snd (insert_data empty_batches (mkSink [] []) (mkFiles 5 5 5) 3 0)) = 5 /\
  highest_block_inserted (files (stream_init (mkFiles 90 90 90) (mkSink [] [])))
    <= highest_block_inserted (files (snd (stream_run demo_chain demo_round demo_followers
                                              demo_handler demo_handler 1
                                              (stream_init (mkFiles 90 90 90) (mkSink [] []))
                                              (demo_stream 90)))) /\
  most_recent_block_inserted (mkFiles 90 90 90)
    <= most_recent_block_inserted
         (files (snd (stream_data demo_chain demo_round demo_followers demo_handler demo_handler 1
                        demo_stream (most_recent_block_inserted (mkFiles 90 90 90))
                        (mkFiles 90 90 90) (mkSink [] [])))).
Proof.
  assert (Hs : forall start, Forall (fun op => start <= block_num op) (demo_stream start)).
  { intro start. apply Forall_forall. intros op Hin. unfold demo_stream in Hin.
    apply filter_In in Hin as [_ H]. apply Z.leb_le. exact H. }
  split; [exact Hs|].
  destruct (checkpoints_monotone demo_chain demo_round demo_followers demo_handler demo_handler 1
              demo_stream empty_batches (mkSink [] []) (mkFiles 5 5 5) 3 0
              (stream_init (mkFiles 90 90 90) (mkSink [] [])) (demo_stream 90)
              (mkFiles 90 90 90) (mkSink [] []) Hs) as (H1 & H2 & H3).
  split; [rewrite H1; reflexivity|split; assumption].
Defined.

(** ** C9: the price backfill *)

Module PriceClaims.
Import Prices.

Lemma fetch_one_ok download download_time oversleep (d now : Z) :
  (forall t, 0 <= oversleep t) ->
  Forall (ok_event download) (snd (fst (fetch_one download download_time oversleep d now))).
Proof.
  intro Hos. unfold fetch_one.
  destruct (now <? deadline d) eqn:Hlt.
  - pose proof (Hos now).
    destruct (download d) as [e|[row|]] eqn:Ed; simpl;
      repeat constructor; simpl; try lia; eauto.
  - apply Z.ltb_ge in Hlt.
    destruct (download d) as [e|[row|]] eqn:Ed; simpl;
      repeat constructor; simpl; try lia; eauto.
Qed.

(** C9.  In one cycle of [get_missing_prices], every call of the price
    source for a date happens at or after that date's availability instant
    (00:30 UTC the next day), sleeping first when the instant lies ahead;
    an insert for a date happens only when the source returned a row; and
    a date for which the source returns no row is processed without an
    insert and without an exception. *)
Theorem backfill_waits_and_skips (download : Z -> exn + option PriceRow)
    (download_time oversleep : Z -> Z) (dates : list Z) (now d t : Z) :
  (forall x, 0 <= oversleep x) ->
  Forall (ok_event download)
    (snd (fst (get_missing_prices download download_time oversleep dates now))) /\
  (download d = inr None ->
     fst (fst (fetch_one download download_time oversleep d t)) = inr tt /\
     forallb (fun e => negb (is_insert e))
       (snd (fst (fetch_one download download_time oversleep d t))) = true).
Proof.
  intro Hos. split.
  - revert now. induction dates as [|x xs IH]; intro now; simpl; [constructor|].
    pose proof (fetch_one_ok download download_time oversleep x now Hos) as Hx.
    destruct (fetch_one download download_time oversleep x now) as [[[e|u] ev] t'];
      simpl in *; [exact Hx|].
    specialize (IH t').
    destruct (get_missing_prices download download_time oversleep xs t') as [[r ev'] t''].
    simpl in *. apply Forall_app. split; assumption.
  - intro Hn. unfold fetch_one. rewrite Hn.
    destruct (t <? deadline d); simpl; split; reflexivity.
Qed.

Lemma backfill_waits_and_skips_witness :
  Forall (ok_event demo_download)
    (snd (fst (get_missing_prices demo_download (fun _ => 5) (fun _ => 0) [19999; 20000; 20001] 0))) /\
  (demo_download 20000 = inr None ->
     fst (fst (fetch_one demo_download (fun _ => 5) (fun _ => 0) 20000 0)) = inr tt /\
     forallb (fun e => negb (is_insert e))
       (snd (fst (fetch_one demo_download (fun _ => 5) (fun _ => 0) 20000 0))) = true) /\
  demo_download 20000 = inr None.
Proof.
  assert (H := backfill_waits_and_skips demo_download (fun _ => 5) (fun _ => 0)
                 [19999; 20000; 20001] 0 20000 0 (fun _ => Z.le_refl 0)).
  split; [exact (proj1 H)|split; [exact (proj2 H)|reflexivity]].
Defined.

End PriceClaims.

(** ** C10: the block-number cutoff *)

(** C10.  For an operation of a block below 84763551, every operation
    other than vote, curation_reward and comment_benefactor_reward (so
    comment, comment_options, custom_json and author_reward among them) is
    not handled: the state, every batch included, is left as it was. *)
Theorem early_blocks_skip_content (chain : Chain) (round_payout : Z -> Z)
    (followers : json -> Z -> exn + Z) (handle_post handle_comment : Op -> Z -> M unit)
    (op : Op) (s : St) :
  block_num op < block_cutoff ->
  match body op with
  | OVote _ _ _ _ | OCurationReward _ _ _ _ | OBenefactorReward _ _ _ _ => False
  | _ => True
  end ->
  process_op chain round_payout followers handle_post handle_comment op s = (inr tt, s).
Proof.
  intros Hlt Hty. unfold process_op, dispatch.
  apply Z.ltb_lt in Hlt. rewrite Hlt.
  destruct (body op); try contradiction; reflexivity.
Qed.

Lemma early_blocks_skip_content_witness :
  process_op demo_chain demo_round demo_followers demo_handler demo_handler
    (mkOp 1000 0 (OAuthorReward "alice" "pa" 500)) demo_state = (inr tt, demo_state).
Proof.
  apply early_blocks_skip_content.
  - vm_compute. reflexivity.
  - exact I.
Defined.

(** ** C2: the block the outer loop restarts from *)

(** C2 (code defect).  [start_block_stream] never restarts the stream:
    the call of line 29 passes [config_path], which [stream_data] does not
    accept, so the first call raises a [TypeError] that the
    [except RPCError] clause does not catch; the loop ends after one call,
    from the resumable checkpoint, before any block is streamed.  Were an
    [RPCError] to reach the loop, the block it restarts from is the one in
    [data\most_recent_block] left by the failed call, not the resumable
    checkpoint.  For [stream_data] itself, from checkpoint 90 with the
    votes of blocks 90 and 93 held in memory (threshold 1000) and a
    failure on block 96 past the per-operation retry budget, that pointer
    holds 96 while the checkpoint still holds 90. *)
Theorem restart_reads_last_seen_block :
  (forall fuel fs sk,
     start_block_stream (S fuel) fs sk = ([most_recent_block_inserted fs], Crashed TypeError)) /\
  (forall call fuel block fs sk fs' sk',
     call block fs sk = (inl RPCError, (fs', sk')) ->
     exists bs o, outer_loop call (S (S fuel)) 0 block fs sk = (block :: most_recent_block fs' :: bs, o)) /\
  most_recent_block_inserted
    (files (snd (stream_data demo_failing_chain demo_round demo_followers demo_handler demo_handler
                   1000 demo_stream 90 (mkFiles 90 90 90) (mkSink [] [])))) = 90 /\
  most_recent_block
    (files (snd (stream_data demo_failing_chain demo_round demo_followers demo_handler demo_handler
                   1000 demo_stream 90 (mkFiles 90 90 90) (mkSink [] [])))) = 96 /\
  lookup_batch "votes"
    (batches (st (snd (stream_data demo_failing_chain demo_round demo_followers demo_handler demo_handler
                         1000 demo_stream 90 (mkFiles 90 90 90) (mkSink [] []))))) <> [].
Proof.
  split; [intros; reflexivity|].
  split.
  - intros call fuel block fs sk fs' sk' Hc.
    cbn [outer_loop]. rewrite Hc. cbn.
    destruct (call (most_recent_block fs') fs' sk') as [[e|u] [fs2 sk2]];
      [destruct e|]; cbn;
      try (match goal with |- context [outer_loop ?c ?f ?a ?b ?x ?y] =>
             destruct (outer_loop c f a b x y) as [bs o] end);
      eexists _, _; reflexivity.
  - vm_compute. repeat split; discriminate.
Qed.

(** A call that runs [stream_data]'s body: the second call of the loop
    starts from block 96, from the checkpoint 90. *)
Definition demo_body_call (block : Z) (fs : Files) (sk : Sink) : (exn + unit) * (Files * Sink) :=
  let '(r, w) := stream_data demo_failing_chain demo_round demo_followers demo_handler demo_handler
                   1000 demo_stream block fs sk in
  (r, (files w, sink w)).

Lemma restart_reads_last_seen_block_witness :
  demo_body_call 90 (mkFiles 90 90 90) (mkSink [] [])
    = (inl RPCError, (mkFiles 90 90 96, sink (snd (stream_data demo_failing_chain demo_round demo_followers
         demo_handler demo_handler 1000 demo_stream 90 (mkFiles 90 90 90) (mkSink [] []))))) /\
  exists bs o, outer_loop demo_body_call 2 0 90 (mkFiles 90 90 90) (mkSink [] []) = (90 :: 96 :: bs, o).
Proof.
  assert (H : demo_body_call 90 (mkFiles 90 90 90) (mkSink [] [])
    = (inl RPCError, (mkFiles 90 90 96, sink (snd (stream_data demo_failing_chain demo_round demo_followers
         demo_handler demo_handler 1000 demo_stream 90 (mkFiles 90 90 90) (mkSink [] [])))))).
  { vm_compute. reflexivity. }
  split; [exact H|].
  exact (proj1 (proj2 restart_reads_last_seen_block) demo_body_call O 90 _ _ _ _ H).
Defined.

(** * Further properties of the code *)

(** ** [AccountChecker.check] *)

(** [check u] on a name not yet seen: a failing account lookup propagates
    its error and leaves every list as it was; a successful one appends one
    Account record with the creation time returned, after which [u] is
    seen and a second [check u] changes nothing. *)
Theorem check_unseen (chain : Chain) (u : string) (s : St) :
  wf s -> seen s u = false ->
  (forall e, get_account chain u = inl e -> check chain u s = (inl e, s)) /\
  (forall t, get_account chain u = inr t ->
     check chain u s
       = (inr tt, set_batches (append_batch "accounts" (RAccount (mkAccount u t)) (batches s)) s) /\
     seen (snd (check chain u s)) u = true /\
     check chain u (snd (check chain u s)) = (inr tt, snd (check chain u s))).
Proof. exact (check_unseen_step chain u s). Qed.

Lemma check_unseen_witness :
  wf demo_known /\ seen demo_known "bob" = false /\
  check demo_chain "bob" demo_known
    = (inr tt, set_batches (append_batch "accounts" (RAccount (mkAccount "bob" 0)) (batches demo_known))
                 demo_known).
Proof.
  assert (Hw : wf demo_known) by reflexivity.
  assert (Hn : seen demo_known "bob" = false) by reflexivity.
  split; [exact Hw|]. split; [exact Hn|].
  exact (proj1 (proj2 (check_unseen demo_chain "bob" demo_known Hw Hn) 0 eq_refl)).
Defined.

(** ** [handle_beneficiary] (post.py) *)


(** [handle_beneficiary] reads only the first extension of
    [comment_options]: for each of its beneficiaries, in order, it checks
    the account and appends one Beneficiary record with [pct = weight // 100];
    no other list but [accounts] changes, and every beneficiary ends up
    seen.  With no extension, nothing happens. *)
Theorem handle_beneficiary_records (chain : Chain) (a p : string)
    (ext : list (list (string * Z))) (s : St) :
  (forall v, exists t, get_account chain v = inr t) -> wf s ->
  handle_beneficiary chain a p [] s = (inr tt, s) /\
  exists s', handle_beneficiary chain a p ext s = (inr tt, s') /\
    lookup_batch "beneficiaries" (batches s')
      = lookup_batch "beneficiaries" (batches s)
        ++ ben_records a p (match ext with [] => [] | bens :: _ => bens end) /\
    (forall k, k <> "accounts" -> k <> "beneficiaries" ->
       lookup_batch k (batches s') = lookup_batch k (batches s)) /\
    Forall (fun bw => seen s' (fst bw) = true) (match ext with [] => [] | bens :: _ => bens end).
Proof.
  intros Hacc Hwf. split; [reflexivity|].
  destruct ext as [|bens rest].
  - exists s. simpl. rewrite app_nil_r. repeat split; auto.
  - destruct (add_beneficiaries_ok chain Hacc a p bens s Hwf)
      as (s' & E & _ & L & O & _ & _ & _ & _ & F).
    exists s'. simpl. repeat split; assumption.
Qed.

Lemma handle_beneficiary_records_witness :
  exists s', handle_beneficiary demo_chain "alice" "pa" [[("bob", 2550); ("carol", 1000)]; [("dave", 500)]]
               demo_state = (inr tt, s') /\
    lookup_batch "beneficiaries" (batches s')
      = [RBeneficiary (mkBeneficiary "alice" "pa" "bob" 25);
         RBeneficiary (mkBeneficiary "alice" "pa" "carol" 10)].
Proof.
  destruct (proj2 (handle_beneficiary_records demo_chain "alice" "pa"
                     [[("bob", 2550); ("carol", 1000)]; [("dave", 500)]] demo_state
                     (fun v => ex_intro _ 0 eq_refl) eq_refl))
    as (s' & E & L & _ & _).
  exists s'. split; [exact E|]. rewrite L. reflexivity.
Defined.

(** ** [handle_vote] (social.py) *)

Lemma check_result (chain : Chain) (u : string) (t : Z) (s : St) :
  wf s -> get_account chain u = inr t ->
  check chain u s
    = (inr tt, if seen s u then s
               else set_batches (append_batch "accounts" (RAccount (mkAccount u t)) (batches s)) s).
Proof.
  intros Hwf Ht. destruct (seen s u) eqn:Hu.
  - unfold check, bind, get_state. rewrite Hu. reflexivity.
  - exact (proj1 (proj2 (check_unseen_step chain u s Hwf Hu) t Ht)).
Qed.

(** [handle_vote] registers the voter only, never the post's author: the
    one account lookup it may make is the voter's.  It appends one Vote
    record whose rshares are those of the first entry of the post's
    [active_votes] cast by the voter, or 0 when the voter is not among
    them; no other list but [accounts] and [votes] changes. *)
Theorem handle_vote_accounts (chain : Chain) (a p v : string) (w date t : Z) (ct : Content) (s : St) :
  wf s -> get_account chain v = inr t -> get_content chain a p = inr ct ->
  exists s', handle_vote chain a p v w date s = (inr tt, s') /\
    lookup_batch "accounts" (batches s')
      = lookup_batch "accounts" (batches s)
        ++ (if seen s v then [] else [RAccount (mkAccount v t)]) /\
    lookup_batch "votes" (batches s')
      = lookup_batch "votes" (batches s)
        ++ [RVote (mkVote a p v date (w / 100)
                     (match find (fun vr => String.eqb (fst vr) v) (active_votes ct) with
                      | Some vr => snd vr
                      | None => 0
                      end))] /\
    (forall k, k <> "accounts" -> k <> "votes" ->
       lookup_batch k (batches s') = lookup_batch k (batches s)).
Proof.
  intros Hwf Ht Ect. unfold handle_vote.
  cbv beta iota zeta delta [bind append_record modify lift ret].
  rewrite (check_result chain v t s Hwf Ht), Ect.
  eexists. split; [reflexivity|]. simpl.
  destruct (seen s v); simpl.
  - split; [rewrite lookup_append_other by discriminate; rewrite app_nil_r; reflexivity|].
    split; [apply lookup_append_wf; [exact Hwf|simpl; tauto]|].
    intros k Hk Hv. apply lookup_append_other. exact Hv.
  - assert (W1 : map fst (append_batch "accounts" (RAccount (mkAccount v t)) (batches s)) = categories)
      by (rewrite keys_append_batch; exact Hwf).
    split; [rewrite lookup_append_other by discriminate; apply lookup_append_wf; [exact Hwf|simpl; tauto]|].
    split; [rewrite lookup_append_wf by (exact W1 || (simpl; tauto));
            rewrite lookup_append_other by discriminate; reflexivity|].
    intros k Hk Hv. rewrite !lookup_append_other by assumption. reflexivity.
Qed.

Lemma handle_vote_accounts_witness :
  exists s', handle_vote (mkChain (fun u => if String.eqb u "carol" then inr 7 else inl RPCError)
                                  (fun _ _ => inr (mkContent [("dave", 3); ("carol", 40); ("carol", 9)] 0)))
               "alice" "pa" "carol" 10000 5 demo_state = (inr tt, s') /\
    lookup_batch "accounts" (batches s') = [RAccount (mkAccount "carol" 7)] /\
    lookup_batch "votes" (batches s') = [RVote (mkVote "alice" "pa" "carol" 5 100 40)].
Proof.
  destruct (handle_vote_accounts (mkChain (fun u => if String.eqb u "carol" then inr 7 else inl RPCError)
                                  (fun _ _ => inr (mkContent [("dave", 3); ("carol", 40); ("carol", 9)] 0)))
              "alice" "pa" "carol" 10000 5 7 (mkContent [("dave", 3); ("carol", 40); ("carol", 9)] 0)
              demo_state eq_refl eq_refl eq_refl) as (s' & E & La & Lv & _).
  exists s'. split; [exact E|]. split; [rewrite La; reflexivity|rewrite Lv; reflexivity].
Defined.

(** ** [parse_resteem] / [handle_resteem] (social.py) *)

Lemma match_reblog_other {A : Type} (x0 : json) (X Y : A) :
  x0 <> JStr "reblog" -> match x0 with JStr "reblog" => X | _ => Y end = Y.
Proof.
  intro H. destruct x0 as [| | |tag| |]; try reflexivity.
  assert (Ht : tag <> "reblog") by congruence. clear H.
  repeat (match goal with
          | |- context [match ?x with _ => _ end] => destruct x
          end; try reflexivity).
  all: congruence.
Qed.

(** [handle_resteem] leaves every list as it was for a custom-JSON id other
    than [follow], a payload that is not an array, an array whose first
    item is not the string ["reblog"], and a reblog object missing one of
    [account], [author] and [permlink].  For a well-formed reblog it checks
    the resteemer and appends one Resteem record with the post's author and
    permlink, [resteemed_by] the [account] field, the follower count at the
    operation's time and the block date; only [accounts] and [resteems]
    change. *)
Theorem handle_resteem_cases (chain : Chain) (followers : json -> Z -> exn + Z)
    (s : St) (ts date : Z) :
  wf s ->
  (forall id j, id <> "follow" -> handle_resteem chain followers id j ts date s = (inr tt, s)) /\
  (forall j, (forall xs, j <> JArr xs) ->
     handle_resteem chain followers "follow" j ts date s = (inr tt, s)) /\
  (forall x0 rest, x0 <> JStr "reblog" ->
     handle_resteem chain followers "follow" (JArr (x0 :: rest)) ts date s = (inr tt, s)) /\
  (forall kvs rest, obj_has "account" kvs && obj_has "author" kvs && obj_has "permlink" kvs = false ->
     handle_resteem chain followers "follow" (JArr (JStr "reblog" :: JObj kvs :: rest)) ts date s
       = (inr tt, s)) /\
  (forall kvs rest acct au pl f t,
     obj_get "account" kvs = Some (JStr acct) -> obj_get "author" kvs = Some au ->
     obj_get "permlink" kvs = Some pl -> followers (JStr acct) ts = inr f ->
     get_account chain acct = inr t ->
     exists s', handle_resteem chain followers "follow" (JArr (JStr "reblog" :: JObj kvs :: rest)) ts date s
                  = (inr tt, s') /\
       lookup_batch "resteems" (batches s')
         = lookup_batch "resteems" (batches s) ++ [RResteem (mkResteem au pl (JStr acct) f) date] /\
       seen s' acct = true /\
       (forall k, k <> "accounts" -> k <> "resteems" ->
          lookup_batch k (batches s') = lookup_batch k (batches s))).
Proof.
  intro Hwf.
  split; [|split; [|split; [|split]]].
  - intros id j Hid. unfold handle_resteem, parse_resteem, bind, lift, ret.
    apply String.eqb_neq in Hid. rewrite Hid. reflexivity.
  - intros j Hj. unfold handle_resteem, parse_resteem, bind, lift, ret. simpl.
    destruct j; try reflexivity. exfalso. eapply Hj. reflexivity.
  - intros x0 rest Hx. unfold handle_resteem, parse_resteem, bind, lift. simpl.
    rewrite (match_reblog_other x0 _ (inr None) Hx). reflexivity.
  - intros kvs rest Hk. unfold handle_resteem, parse_resteem, bind, lift. simpl.
    rewrite Hk. reflexivity.
  - intros kvs rest acct au pl f t Ha Hu Hp Hf Ht.
    unfold handle_resteem, parse_resteem, obj_has. cbv beta iota zeta delta [bind lift].
    simpl. rewrite Ha, Hu, Hp, Hf. simpl. unfold check_json.
    rewrite (check_result chain acct t s Hwf Ht).
    unfold append_record, modify. eexists. split; [reflexivity|]. simpl.
    assert (Sa : seen (if seen s acct then s
                       else set_batches (append_batch "accounts" (RAccount (mkAccount acct t)) (batches s)) s)
                      acct = true).
    { destruct (seen s acct) eqn:E; [exact E|].
      unfold seen. simpl. rewrite lookup_append_wf by (exact Hwf || (simpl; tauto)).
      rewrite existsb_app. simpl. rewrite String.eqb_refl, !orb_true_r. reflexivity. }
    assert (W1 : map fst (batches (if seen s acct then s
                 else set_batches (append_batch "accounts" (RAccount (mkAccount acct t)) (batches s)) s))
                 = categories)
      by (destruct (seen s acct); simpl; [exact Hwf|rewrite keys_append_batch; exact Hwf]).
    split; [|split].
    + rewrite lookup_append_wf by (exact W1 || (simpl; tauto)).
      destruct (seen s acct); simpl; [reflexivity|].
      rewrite lookup_append_other by discriminate. reflexivity.
    + rewrite seen_append_other by discriminate. exact Sa.
    + intros k Hk Hr. rewrite lookup_append_other by exact Hr.
      destruct (seen s acct); simpl; [reflexivity|].
      apply lookup_append_other. exact Hk.
Qed.

Lemma handle_resteem_cases_witness :
  wf demo_state /\
  exists s', handle_resteem demo_chain demo_followers "follow"
               (JArr [JStr "reblog"; JObj [("account", JStr "carol"); ("author", JStr "alice");
                                          ("permlink", JStr "pa")]]) 4 5 demo_state = (inr tt, s') /\
    lookup_batch "resteems" (batches s')
      = [RResteem (mkResteem (JStr "alice") (JStr "pa") (JStr "carol") 0) 5].
Proof.
  assert (Hw : wf demo_state) by reflexivity.
  split; [exact Hw|].
  destruct (proj2 (proj2 (proj2 (proj2 (handle_resteem_cases demo_chain demo_followers demo_state 4 5 Hw))))
              [("account", JStr "carol"); ("author", JStr "alice"); ("permlink", JStr "pa")] []
              "carol" (JStr "alice") (JStr "pa") 0 0 eq_refl eq_refl eq_refl eq_refl eq_refl)
    as (s' & E & L & _ & _).
  exists s'. split; [exact E|]. rewrite L. reflexivity.
Defined.

(** ** The curation aggregator over any run of events *)

Lemma cr_fold_groups_ok (g : Group) (evs : list CurationEvent) :
  open_group_ok g ->
  Forall (fun g' => g_author g' <> None /\ g_rewards g' <> []) (fst (cr_fold g evs)) /\
  open_group_ok (snd (cr_fold g evs)).
Proof.
  revert g. induction evs as [|e evs IH]; intros g Hg; simpl; [split; [constructor|exact Hg]|].
  destruct (cr_next g (ce_author e) (ce_permlink e) (ce_curator e) (ce_reward e) (ce_date e))
    as [out g'] eqn:En.
  assert (Hout : Forall (fun g' => g_author g' <> None /\ g_rewards g' <> []) out /\ open_group_ok g').
  { unfold cr_next in En. destruct (check_new_post g (ce_author e) (ce_permlink e)).
    - destruct (g_author g) as [a0|] eqn:Ga; injection En as <- <-.
      + split; [|right; unfold add_to; simpl; intro Hn; apply (f_equal (@length _)) in Hn; rewrite ?length_app in Hn; simpl in Hn; lia].
        apply Forall_cons; [|apply Forall_nil].
        split; [congruence|]. destruct Hg as [Hg|Hg]; [congruence|exact Hg].
      + split; [constructor|right; unfold add_to; simpl; intro Hn; apply (f_equal (@length _)) in Hn; rewrite ?length_app in Hn; simpl in Hn; lia].
    - injection En as <- <-. split; [constructor|right; unfold add_to; simpl; intro Hn; apply (f_equal (@length _)) in Hn; rewrite ?length_app in Hn; simpl in Hn; lia]. }
  destruct Hout as [Ho Hg'].
  destruct (IH g' Hg') as [H1 H2].
  destruct (cr_fold g' evs) as [out' g''] eqn:Ef. simpl in *.
  split; [apply Forall_app; split; assumption|exact H2].
Qed.

Lemma cr_fold_cons_length (g : Group) (e : CurationEvent) (evs : list CurationEvent) :
  length (fst (cr_fold g (e :: evs)))
  = (length (fst (cr_next g (ce_author e) (ce_permlink e) (ce_curator e) (ce_reward e) (ce_date e)))
     + length (fst (cr_fold (snd (cr_next g (ce_author e) (ce_permlink e) (ce_curator e) (ce_reward e) (ce_date e))) evs)))%nat.
Proof.
  simpl. destruct (cr_next g _ _ _ _ _) as [out g']. simpl.
  destruct (cr_fold g' evs) as [out' g'']. simpl. apply length_app.
Qed.

Section CurationRun.
Variable chain : Chain.
Variable round_payout : Z -> Z.
Hypothesis accounts_ok : forall v, exists t, get_account chain v = inr t.
Hypothesis content_ok : forall a p, exists ct, get_content chain a p = inr ct.

Lemma feed_curation_post_values (evs : list CurationEvent) (s : St) :
  wf s ->
  exists s', feed_curation chain round_payout evs s = (inr tt, s') /\
    length (lookup_batch "post_values" (batches s'))
      = (length (lookup_batch "post_values" (batches s)) + length (fst (cr_fold (crs s) evs)))%nat.
Proof.
  revert s. induction evs as [|e evs IH]; intros s Hwf.
  - exists s. simpl. split; [reflexivity|lia].
  - destruct (content_ok (ce_author e) (ce_permlink e)) as [ct Ect].
    destruct (handle_curation_reward_step chain round_payout accounts_ok (ce_author e) (ce_permlink e)
                (ce_curator e) (ce_reward e) (ce_date e) ct s Hwf Ect) as (s1 & E1 & W1 & _ & C1 & P1).
    destruct (IH s1 W1) as (s2 & E2 & L2).
    exists s2. cbn [feed_curation]. unfold bind at 1. rewrite E1. split; [exact E2|].
    rewrite L2, P1, C1, length_app, cr_fold_cons_length.
    assert (Hn : length (if check_new_post (crs s) (ce_author e) (ce_permlink e)
                         then match g_author (crs s) with
                              | Some _ => [RPostValue (mkPostValue (ce_author e) (ce_permlink e)
                                             (round_payout (curator_payout_value ct) * 2))]
                              | None => []
                              end
                         else [])
                 = length (fst (cr_next (crs s) (ce_author e) (ce_permlink e) (ce_curator e)
                                  (ce_reward e) (ce_date e)))).
    { unfold cr_next. destruct (check_new_post (crs s) (ce_author e) (ce_permlink e));
        [destruct (g_author (crs s))|]; reflexivity. }
    rewrite Hn. lia.
Qed.

End CurationRun.

(** For any run of curation-reward events on an aggregator whose open group
    is the initial one or holds a reward (as [stream_data] keeps it), the
    groups appended to [curation_rewards] are exactly those closed along the
    run, in order; each has a post key and at least one reward; and
    [post_values] grows by exactly one record per closed group. *)
Theorem curation_run_groups (chain : Chain) (round_payout : Z -> Z)
    (evs : list CurationEvent) (s : St) :
  (forall v, exists t, get_account chain v = inr t) ->
  (forall a p, exists ct, get_content chain a p = inr ct) ->
  wf s -> open_group_ok (crs s) ->
  exists s', feed_curation chain round_payout evs s = (inr tt, s') /\
    lookup_batch "curation_rewards" (batches s')
      = lookup_batch "curation_rewards" (batches s) ++ map RCurationRewards (fst (cr_fold (crs s) evs)) /\
    Forall (fun g => g_author g <> None /\ g_rewards g <> []) (fst (cr_fold (crs s) evs)) /\
    (length (lookup_batch "post_values" (batches s')) - length (lookup_batch "post_values" (batches s))
     = length (lookup_batch "curation_rewards" (batches s'))
       - length (lookup_batch "curation_rewards" (batches s)))%nat.
Proof.
  intros Hacc Hct Hwf Hg.
  destruct (feed_curation_ok chain round_payout Hacc Hct evs s Hwf) as (s' & E & _ & L & _).
  destruct (feed_curation_post_values chain round_payout Hacc Hct evs s Hwf) as (s'' & E' & P).
  rewrite E in E'. injection E' as <-.
  exists s'. split; [exact E|]. split; [exact L|].
  split; [exact (proj1 (cr_fold_groups_ok (crs s) evs Hg))|].
  rewrite P, L, length_app, length_map. lia.
Qed.

Lemma curation_run_groups_witness :
  exists s', feed_curation demo_chain demo_round
               [mkCE "alice" "pa" "c1" 1 1; mkCE "bob" "pb" "c2" 2 2; mkCE "bob" "pb" "c3" 3 3;
                mkCE "alice" "pa" "c4" 4 4] demo_state = (inr tt, s') /\
    length (lookup_batch "curation_rewards" (batches s')) = 2%nat.
Proof.
  destruct (curation_run_groups demo_chain demo_round
              [mkCE "alice" "pa" "c1" 1 1; mkCE "bob" "pb" "c2" 2 2; mkCE "bob" "pb" "c3" 3 3;
               mkCE "alice" "pa" "c4" 4 4] demo_state
              (fun v => ex_intro _ 0 eq_refl)
              (fun a p => ex_intro _ _ eq_refl) eq_refl (or_introl eq_refl))
    as (s' & E & L & _ & _).
  exists s'. split; [exact E|]. rewrite L. reflexivity.
Defined.

(** ** The beneficiary aggregator *)

Section BeneficiaryRun.
Variable chain : Chain.
Hypothesis accounts_ok : forall v, exists t, get_account chain v = inr t.

Lemma handle_beneficiary_reward_step (a p b : string) (v date : Z) (s : St) :
  wf s ->
  exists s', handle_beneficiary_reward chain a p b v date s = (inr tt, s') /\ wf s' /\
    lookup_batch "beneficiary_rewards" (batches s')
      = lookup_batch "beneficiary_rewards" (batches s)
        ++ map RBeneficiaryRewards (fst (cr_next (brs s) a p b v date)) /\
    brs s' = snd (cr_next (brs s) a p b v date) /\
    (forall k, k <> "accounts" -> k <> "beneficiary_rewards" ->
       lookup_batch k (batches s') = lookup_batch k (batches s)).
Proof.
  intros Hwf.
  destruct (check_step chain accounts_ok a s) as (s1 & E1 & F1).
  pose proof F1 as (K1 & _ & _ & B1 & L1).
  unfold handle_beneficiary_reward.
  cbv beta iota zeta delta [bind append_record modify lift ret get_state].
  rewrite E1. unfold cr_next. rewrite <- B1.
  destruct (check_new_post (brs s1) a p) eqn:N.
  - destruct (g_author (brs s1)) as [a0|] eqn:G.
    + match goal with |- context [add_reward chain ?g b v ?st] =>
        destruct (add_reward_step chain accounts_ok g b v st) as (s4 & E4 & F4); rewrite E4 end.
      pose proof F4 as (K4 & _ & _ & _ & L4).
      eexists; split; [reflexivity|]. simpl in K4, L4.
      rewrite keys_append_batch in K4.
      repeat split.
      * unfold wf. simpl. rewrite K4, K1. exact Hwf.
      * simpl. rewrite L4 by discriminate.
        rewrite lookup_append_wf; [| rewrite K1; exact Hwf | simpl; tauto].
        rewrite L1 by discriminate. reflexivity.
      * intros k Hk Hb. simpl. rewrite L4 by exact Hk.
        rewrite lookup_append_other by exact Hb. apply L1. exact Hk.
    + match goal with |- context [add_reward chain ?g b v ?st] =>
        destruct (add_reward_step chain accounts_ok g b v st) as (s4 & E4 & F4); rewrite E4 end.
      pose proof F4 as (K4 & _ & _ & _ & L4).
      eexists; split; [reflexivity|].
      repeat split.
      * unfold wf. simpl. rewrite K4, K1. exact Hwf.
      * simpl. rewrite L4, L1 by discriminate. rewrite app_nil_r. reflexivity.
      * intros k Hk Hb. simpl. rewrite L4, L1 by exact Hk. reflexivity.
  - match goal with |- context [add_reward chain ?g b v ?st] =>
      destruct (add_reward_step chain accounts_ok g b v st) as (s4 & E4 & F4); rewrite E4 end.
    pose proof F4 as (K4 & _ & _ & _ & L4).
    eexists; split; [reflexivity|].
    repeat split.
    * unfold wf. simpl. rewrite K4, K1. exact Hwf.
    * simpl. rewrite L4, L1 by discriminate. rewrite app_nil_r. reflexivity.
    * intros k Hk Hb. simpl. rewrite L4, L1 by exact Hk. reflexivity.
Qed.

Lemma feed_beneficiary_ok (evs : list CurationEvent) (s : St) :
  wf s ->
  exists s', feed_beneficiary chain evs s = (inr tt, s') /\ wf s' /\
    lookup_batch "beneficiary_rewards" (batches s')
      = lookup_batch "beneficiary_rewards" (batches s)
        ++ map RBeneficiaryRewards (fst (cr_fold (brs s) evs)) /\
    brs s' = snd (cr_fold (brs s) evs) /\
    (forall k, k <> "accounts" -> k <> "beneficiary_rewards" ->
       lookup_batch k (batches s') = lookup_batch k (batches s)).
Proof.
  revert s. induction evs as [|e evs IH]; intros s Hwf.
  - exists s. simpl. rewrite app_nil_r. repeat split; auto.
  - destruct (handle_beneficiary_reward_step (ce_author e) (ce_permlink e) (ce_curator e)
                (ce_reward e) (ce_date e) s Hwf) as (s1 & E1 & W1 & L1 & B1 & O1).
    destruct (IH s1 W1) as (s2 & E2 & W2 & L2 & B2 & O2).
    exists s2. cbn [feed_beneficiary]. unfold bind at 1. rewrite E1.
    split; [exact E2|]. split; [exact W2|].
    simpl. rewrite B1 in L2, B2.
    destruct (cr_next (brs s) (ce_author e) (ce_permlink e) (ce_curator e) (ce_reward e) (ce_date e))
      as [out g'] eqn:Ecn. simpl in L1, L2, B2.
    destruct (cr_fold g' evs) as [out' g''] eqn:Ecf. simpl in *.
    split; [rewrite L2, L1, map_app, app_assoc; reflexivity|].
    split; [exact B2|].
    intros k Hk Hb. rewrite O2, O1 by assumption. reflexivity.
Qed.

End BeneficiaryRun.

Lemma feed_beneficiary_content_free (ga : string -> exn + Z)
    (gc gc' : string -> string -> exn + Content) (evs : list CurationEvent) (s : St) :
  feed_beneficiary (mkChain ga gc) evs s = feed_beneficiary (mkChain ga gc') evs s.
Proof.
  revert s. induction evs as [|e evs IH]; intro s; [reflexivity|].
  cbn [feed_beneficiary]. unfold bind.
  change (handle_beneficiary_reward (mkChain ga gc') (ce_author e) (ce_permlink e)
            (ce_curator e) (ce_reward e) (ce_date e) s)
    with (handle_beneficiary_reward (mkChain ga gc) (ce_author e) (ce_permlink e)
            (ce_curator e) (ce_reward e) (ce_date e) s).
  destruct (handle_beneficiary_reward (mkChain ga gc) _ _ _ _ _ s) as [[e'|u] s1]; [reflexivity|].
  apply IH.
Qed.

(** The beneficiary aggregator behaves like the curation one, without its
    payout lookup: over any run of [comment_benefactor_reward] events the
    groups appended to [beneficiary_rewards] are exactly those closed along
    the run, each with a post key and at least one reward; no list but
    [accounts] and [beneficiary_rewards] changes (in particular no
    PostValue record), and the outcome does not depend on the Chain
    Source's content lookups. *)
Theorem beneficiary_run_groups (chain : Chain) (evs : list CurationEvent) (s : St) :
  (forall v, exists t, get_account chain v = inr t) ->
  wf s -> open_group_ok (brs s) ->
  (exists s', feed_beneficiary chain evs s = (inr tt, s') /\
    lookup_batch "beneficiary_rewards" (batches s')
      = lookup_batch "beneficiary_rewards" (batches s)
        ++ map RBeneficiaryRewards (fst (cr_fold (brs s) evs)) /\
    Forall (fun g => g_author g <> None /\ g_rewards g <> []) (fst (cr_fold (brs s) evs)) /\
    (forall k, k <> "accounts" -> k <> "beneficiary_rewards" ->
       lookup_batch k (batches s') = lookup_batch k (batches s))) /\
  (forall gc, feed_beneficiary (mkChain (get_account chain) gc) evs s = feed_beneficiary chain evs s).
Proof.
  intros Hacc Hwf Hg. split.
  - destruct (feed_beneficiary_ok chain Hacc evs s Hwf) as (s' & E & _ & L & _ & O).
    exists s'. split; [exact E|]. split; [exact L|].
    split; [exact (proj1 (cr_fold_groups_ok (brs s) evs Hg))|exact O].
  - intro gc. destruct chain as [ga gc0]. apply feed_beneficiary_content_free.
Qed.

Lemma beneficiary_run_groups_witness :
  exists s', feed_beneficiary demo_chain
               [mkCE "alice" "pa" "steem.dao" 10 1; mkCE "alice" "pa" "bob" 20 1;
                mkCE "carol" "pc" "bob" 5 2] demo_state = (inr tt, s') /\
    lookup_batch "beneficiary_rewards" (batches s')
      = [RBeneficiaryRewards (mkGroup (Some "alice") (Some "pa") (Some 1)
                                      [("steem.dao", 10); ("bob", 20)])].
Proof.
  destruct (proj1 (beneficiary_run_groups demo_chain
              [mkCE "alice" "pa" "steem.dao" 10 1; mkCE "alice" "pa" "bob" 20 1;
               mkCE "carol" "pc" "bob" 5 2] demo_state
              (fun v => ex_intro _ 0 eq_refl) eq_refl (or_introl eq_refl)))
    as (s' & E & L & _ & _).
  exists s'. split; [exact E|]. rewrite L. reflexivity.
Defined.

(** ** A retried [handle_curation_reward] *)

(** When an incoming curation reward closes a group and the payout lookup
    then raises [RPCError], the closed group has already been appended to
    [curation_rewards] while the [crs] of [stream_data] still holds it; the
    retry loop runs the handler again on that state, and once the lookup
    succeeds the same group is appended a second time. *)
Theorem curation_retry_duplicates (chain1 chain2 : Chain) (round_payout : Z -> Z)
    (a p c a0 : string) (r date : Z) (ct : Content) (s : St) :
  (forall v, exists t, get_account chain1 v = inr t) ->
  (forall v, get_account chain2 v = get_account chain1 v) ->
  wf s -> check_new_post (crs s) a p = true -> g_author (crs s) = Some a0 ->
  get_content chain1 a p = inl RPCError -> get_content chain2 a p = inr ct ->
  exists s1 s2,
    handle_curation_reward chain1 round_payout a p c r date s = (inl RPCError, s1) /\
    (forall k, retry (S k) (handle_curation_reward chain1 round_payout a p c r date) s
               = retry k (handle_curation_reward chain1 round_payout a p c r date) s1) /\
    crs s1 = crs s /\
    lookup_batch "curation_rewards" (batches s1)
      = lookup_batch "curation_rewards" (batches s) ++ [RCurationRewards (crs s)] /\
    handle_curation_reward chain2 round_payout a p c r date s1 = (inr tt, s2) /\
    lookup_batch "curation_rewards" (batches s2)
      = lookup_batch "curation_rewards" (batches s)
        ++ [RCurationRewards (crs s); RCurationRewards (crs s)].
Proof.
  intros Hacc1 Hacc2 Hwf Hnew Ha0 E1 E2.
  assert (Hacc2' : forall v, exists t, get_account chain2 v = inr t).
  { intro v. rewrite Hacc2. apply Hacc1. }
  destruct (check_step chain1 Hacc1 a s) as (s0 & C0 & F0).
  pose proof F0 as (K0 & _ & Cr0 & _ & L0).
  set (s1 := set_batches (append_batch "curation_rewards" (RCurationRewards (crs s0)) (batches s0)) s0).
  assert (H1 : handle_curation_reward chain1 round_payout a p c r date s = (inl RPCError, s1)).
  { unfold handle_curation_reward.
    cbv beta iota zeta delta [bind append_record modify lift ret get_state].
    rewrite C0. rewrite Cr0, Hnew, Ha0, E1. unfold s1. rewrite Cr0. reflexivity. }
  assert (W1 : wf s1) by (unfold wf, s1; simpl; rewrite keys_append_batch, K0; exact Hwf).
  assert (Crs1 : crs s1 = crs s) by (unfold s1; simpl; exact Cr0).
  assert (L1 : lookup_batch "curation_rewards" (batches s1)
               = lookup_batch "curation_rewards" (batches s) ++ [RCurationRewards (crs s)]).
  { unfold s1. simpl. rewrite lookup_append_wf by (rewrite ?K0; (exact Hwf || (simpl; tauto))).
    rewrite L0 by discriminate. rewrite Cr0. reflexivity. }
  destruct (handle_curation_reward_step chain2 round_payout Hacc2' a p c r date ct s1 W1 E2)
    as (s2 & H2 & _ & L2 & _ & _).
  exists s1, s2. split; [exact H1|]. split.
  { intro k. simpl. rewrite H1. reflexivity. }
  split; [exact Crs1|]. split; [exact L1|]. split; [exact H2|].
  rewrite L2, L1. unfold cr_next. rewrite Crs1, Hnew, Ha0. simpl.
  rewrite <- app_assoc. reflexivity.
Qed.

Lemma curation_retry_duplicates_witness :
  exists s1 s2,
    handle_curation_reward demo_failing_chain demo_round "down" "pd" "c2" 2 2
      (set_crs (mkGroup (Some "alice") (Some "pa") (Some 1) [("c1", 1)]) demo_state) = (inl RPCError, s1) /\
    handle_curation_reward demo_chain demo_round "down" "pd" "c2" 2 2 s1 = (inr tt, s2) /\
    length (lookup_batch "curation_rewards" (batches s2)) = 2%nat.
Proof.
  destruct (curation_retry_duplicates demo_failing_chain demo_chain demo_round "down" "pd" "c2" "alice"
              2 2 (mkContent [] 900)
              (set_crs (mkGroup (Some "alice") (Some "pa") (Some 1) [("c1", 1)]) demo_state)
              (fun v => ex_intro _ 0 eq_refl) (fun v => eq_refl) eq_refl eq_refl eq_refl eq_refl eq_refl)
    as (s1 & s2 & H1 & _ & _ & _ & H2 & L2).
  exists s1, s2. split; [exact H1|]. split; [exact H2|]. rewrite L2. reflexivity.
Defined.

(** ** The last-seen block pointer *)

Lemma insert_data_last_seen (d : Batches) (sk : Sink) (fs : Files) (b n : Z) :
  most_recent_block (snd (insert_data d sk fs b n)) = most_recent_block fs.
Proof.
  unfold insert_data. destruct (n <=? total_length d); [|reflexivity].
  destruct (b >? highest_block_inserted _); reflexivity.
Qed.

Lemma stream_step_last_seen chain round_payout followers handle_post handle_comment n (w : World) (op : Op) :
  most_recent_block (files (snd (stream_step chain round_payout followers handle_post handle_comment n w op)))
  = block_num op.
Proof.
  rewrite stream_step_files, insert_data_last_seen. reflexivity.
Qed.

Lemma last_cons_default {A : Type} (x : A) (l : list A) (d d' : A) :
  last (x :: l) d = last (x :: l) d'.
Proof.
  revert x. induction l as [|y l IH]; intro x; [reflexivity|].
  change (last (y :: l) d = last (y :: l) d'). apply IH.
Qed.

(** A run of the stream loop gets through a prefix of the operations: all
    of them when no handler raises, else up to the one whose handler
    raised.  Either way [data\most_recent_block] then holds the block number
    of the last operation reached, whether or not its records were
    collected or flushed. *)
Theorem last_seen_pointer chain round_payout followers handle_post handle_comment n
    (w : World) (op0 : Op) (ops : list Op) :
  let reached := ops_reached chain round_payout followers handle_post handle_comment n w (op0 :: ops) in
  let w' := snd (stream_run chain round_payout followers handle_post handle_comment n w (op0 :: ops)) in
  (exists post, op0 :: ops = reached ++ post) /\
  (fst (stream_run chain round_payout followers handle_post handle_comment n w (op0 :: ops)) = inr tt ->
     reached = op0 :: ops) /\
  most_recent_block (files w') = block_num (last reached op0).
Proof.
  revert w op0. induction ops as [|op1 ops IH]; intros w op0; simpl.
  - pose proof (stream_step_last_seen chain round_payout followers handle_post handle_comment n w op0) as Hl.
    destruct (stream_step chain round_payout followers handle_post handle_comment n w op0) as [[e|u] w1];
      simpl in *.
    + split; [exists []; reflexivity|]. split; [discriminate|exact Hl].
    + split; [exists []; reflexivity|]. split; [reflexivity|exact Hl].
  - pose proof (stream_step_last_seen chain round_payout followers handle_post handle_comment n w op0) as Hl.
    destruct (stream_step chain round_payout followers handle_post handle_comment n w op0) as [[e|u] w1];
      simpl in *.
    + split; [exists (op1 :: ops); reflexivity|]. split; [discriminate|exact Hl].
    + destruct (IH w1 op1) as ([post Hp] & Hs & Hm). simpl in Hp, Hs, Hm.
      split; [exists post; rewrite <- Hp; reflexivity|].
      split; [intro H; rewrite (Hs H); reflexivity|].
      rewrite Hm.
      destruct (stream_step chain round_payout followers handle_post handle_comment n w1 op1) as [[e|u'] w2];
        [reflexivity|].
      f_equal. apply last_cons_default.
Qed.

Lemma last_seen_pointer_witness :
  most_recent_block
    (files (snd (stream_data demo_failing_chain demo_round demo_followers demo_handler demo_handler
                   1000 demo_stream 90 (mkFiles 90 90 90) (mkSink [] [])))) = 96.
Proof.
  unfold stream_data.
  change (demo_stream 90) with
    [mkOp 90 1 (OVote "alice" "pa" "v1" 10000);
     mkOp 93 2 (OVote "alice" "pa" "v2" 5000);
     mkOp 96 3 (OVote "down" "pd" "v3" 10000)].
  rewrite (proj2 (proj2 (last_seen_pointer demo_failing_chain demo_round demo_followers demo_handler
                           demo_handler 1000 (stream_init (mkFiles 90 90 90) (mkSink [] []))
                           (mkOp 90 1 (OVote "alice" "pa" "v1" 10000))
                           [mkOp 93 2 (OVote "alice" "pa" "v2" 5000);
                            mkOp 96 3 (OVote "down" "pd" "v3" 10000)]))).
  vm_compute. reflexivity.
Defined.

(** ** The price backfill, date by date *)

Lemma fetch_one_events (download : Z -> exn + option Prices.PriceRow) (download_time oversleep : Z -> Z)
    (d now : Z) :
  download_dates (snd (fst (Prices.fetch_one download download_time oversleep d now))) = [d] /\
  insert_dates (snd (fst (Prices.fetch_one download download_time oversleep d now)))
    = (if has_row download d then [d] else []) /\
  fst (fst (Prices.fetch_one download download_time oversleep d now))
    = match download d with inl e => inl e | inr _ => inr tt end.
Proof.
  unfold Prices.fetch_one, has_row, download_dates, insert_dates.
  destruct (now <? Prices.deadline d); destruct (download d) as [e|[row|]]; simpl;
    repeat split; reflexivity.
Qed.

(** One cycle of [get_missing_prices] calls the price source once per
    missing date, in the order of the dates, and inserts exactly the dates
    for which a row came back; the first date whose download raises ends
    the cycle with that exception, and no later date is fetched. *)
Theorem backfill_dates_in_order (download : Z -> exn + option Prices.PriceRow)
    (download_time oversleep : Z -> Z) (now : Z) :
  (forall dates, (forall d, In d dates -> exists o, download d = inr o) ->
     fst (fst (Prices.get_missing_prices download download_time oversleep dates now)) = inr tt /\
     download_dates (snd (fst (Prices.get_missing_prices download download_time oversleep dates now)))
       = dates /\
     insert_dates (snd (fst (Prices.get_missing_prices download download_time oversleep dates now)))
       = filter (has_row download) dates) /\
  (forall pre d post e, (forall x, In x pre -> exists o, download x = inr o) -> download d = inl e ->
     fst (fst (Prices.get_missing_prices download download_time oversleep (pre ++ d :: post) now))
       = inl e /\
     download_dates (snd (fst (Prices.get_missing_prices download download_time oversleep
                                 (pre ++ d :: post) now)))
       = pre ++ [d]).
Proof.
  split.
  - intro dates. revert now. induction dates as [|x xs IH]; intros now Hok; [repeat split; reflexivity|].
    destruct (Hok x (or_introl eq_refl)) as [o Ho].
    destruct (fetch_one_events download download_time oversleep x now) as (D & I & R).
    simpl.
    destruct (Prices.fetch_one download download_time oversleep x now) as [[r ev] t] eqn:Ef.
    simpl in D, I, R. rewrite Ho in R. subst r.
    destruct (IH t (fun d Hd => Hok d (or_intror Hd))) as (R' & D' & I').
    destruct (Prices.get_missing_prices download download_time oversleep xs t) as [[r' ev'] t'].
    simpl in *. split; [exact R'|].
    unfold download_dates, insert_dates in *. rewrite !flat_map_app, D, I, D', I'.
    split; [reflexivity|]. destruct (has_row download x); reflexivity.
  - intros pre d post e. revert now. induction pre as [|x xs IH]; intros now Hok He; simpl.
    + destruct (fetch_one_events download download_time oversleep d now) as (D & _ & R).
      destruct (Prices.fetch_one download download_time oversleep d now) as [[r ev] t].
      simpl in D, R. rewrite He in R. subst r. simpl. split; [reflexivity|exact D].
    + destruct (Hok x (or_introl eq_refl)) as [o Ho].
      destruct (fetch_one_events download download_time oversleep x now) as (D & _ & R).
      destruct (Prices.fetch_one download download_time oversleep x now) as [[r ev] t].
      simpl in D, R. rewrite Ho in R. subst r.
      destruct (IH t (fun z Hz => Hok z (or_intror Hz)) He) as (R' & D').
      destruct (Prices.get_missing_prices download download_time oversleep (xs ++ d :: post) t)
        as [[r' ev'] t'].
      simpl in *. split; [exact R'|].
      unfold download_dates in *. rewrite flat_map_app, D, D'. reflexivity.
Qed.

Lemma backfill_dates_in_order_witness :
  download_dates (snd (fst (Prices.get_missing_prices Prices.demo_download (fun _ => 5) (fun _ => 0)
                               [19999; 20000; 20001] 0))) = [19999; 20000; 20001] /\
  insert_dates (snd (fst (Prices.get_missing_prices Prices.demo_download (fun _ => 5) (fun _ => 0)
                             [19999; 20000; 20001] 0))) = [19999; 20001].
Proof.
  destruct (proj1 (backfill_dates_in_order Prices.demo_download (fun _ => 5) (fun _ => 0) 0)
              [19999; 20000; 20001])
    as (_ & D & I).
  { intros d _. unfold Prices.demo_download. destruct (d =? 20000); eexists; reflexivity. }
  split; [exact D|rewrite I; reflexivity].
Defined.

(** ** The retry loop of [stream_prices] *)

Lemma price_attempts_fail (run : Z -> exn + unit) (n : nat) :
  forall start fuel, 0 <= start -> start + Z.of_nat n = 101 -> (n < fuel)%nat ->
  (forall a, start <= a <= 101 -> exists e, run a = inl e) ->
  price_attempts fuel start run = Some (inl TypeError, map Z.of_nat (seq (Z.to_nat start) (S n))).
Proof.
  induction n as [|n IH]; intros start fuel H0 Hn Hf Hrun;
    (destruct fuel as [|f]; [lia|]); simpl;
    (destruct (Hrun start) as [e He]; [lia|]); rewrite He.
  - replace (start >? 100) with true by (symmetry; apply Z.gtb_lt; lia).
    rewrite Z2Nat.id by lia. reflexivity.
  - replace (start >? 100) with false by (symmetry; rewrite Z.gtb_ltb; apply Z.ltb_ge; lia).
    rewrite (IH (start + 1) f) by (intros; try apply Hrun; lia).
    replace (Z.to_nat (start + 1)) with (S (Z.to_nat start)) by lia.
    rewrite Z2Nat.id by lia. reflexivity.
Qed.

Lemma price_attempts_succ (run : Z -> exn + unit) (n : nat) :
  forall start fuel u, 0 <= start -> start + Z.of_nat n <= 101 -> (n < fuel)%nat ->
  (forall a, start <= a < start + Z.of_nat n -> exists e, run a = inl e) ->
  run (start + Z.of_nat n) = inr u ->
  price_attempts fuel start run = Some (inr tt, map Z.of_nat (seq (Z.to_nat start) (S n))).
Proof.
  induction n as [|n IH]; intros start fuel u H0 Hn Hf Hrun Hu;
    (destruct fuel as [|f]; [lia|]); simpl.
  - rewrite Z.add_0_r in Hu. rewrite Hu, Z2Nat.id by lia. reflexivity.
  - destruct (Hrun start) as [e He]; [lia|]. rewrite He.
    replace (start >? 100) with false by (symmetry; rewrite Z.gtb_ltb; apply Z.ltb_ge; lia).
    rewrite (IH (start + 1) f u) by
      (try (intros; apply Hrun); try (rewrite <- Hu; f_equal); lia).
    replace (Z.to_nat (start + 1)) with (S (Z.to_nat start)) by lia.
    rewrite Z2Nat.id by lia. reflexivity.
Qed.

(** [stream_prices] calls [get_missing_prices] at most 102 times per
    round, with [attempts] = 0, 1, ..., 101: when every call fails the
    round ends in a [TypeError] (the code raises a string), after exactly
    102 calls; when the call made with [attempts] = i (i <= 101) is the
    first to succeed, the round succeeds after i + 1 calls. *)
Theorem stream_prices_retry_bound (run : Z -> exn + unit) :
  (forall fuel, (101 < fuel)%nat -> (forall a, 0 <= a <= 101 -> exists e, run a = inl e) ->
     price_attempts fuel 0 run = Some (inl TypeError, map Z.of_nat (seq 0 102))) /\
  (forall i fuel u, 0 <= i <= 101 -> (Z.to_nat i < fuel)%nat ->
     (forall a, 0 <= a < i -> exists e, run a = inl e) -> run i = inr u ->
     price_attempts fuel 0 run = Some (inr tt, map Z.of_nat (seq 0 (S (Z.to_nat i))))).
Proof.
  split.
  - intros fuel Hf Hrun. apply (price_attempts_fail run 101 0 fuel); auto; lia.
  - intros i fuel u Hi Hf Hrun Hu.
    apply (price_attempts_succ run (Z.to_nat i) 0 fuel u); try lia.
    + intros a Ha. apply Hrun. lia.
    + rewrite Z2Nat.id by lia. exact Hu.
Qed.

Lemma stream_prices_retry_bound_witness :
  price_attempts 200 0 (fun _ => inl RPCError) = Some (inl TypeError, map Z.of_nat (seq 0 102)) /\
  price_attempts 200 0 (fun a => if a <? 7 then inl RPCError else inr tt)
    = Some (inr tt, map Z.of_nat (seq 0 8)).
Proof.
  destruct (stream_prices_retry_bound (fun _ => inl RPCError)) as [F _].
  destruct (stream_prices_retry_bound (fun a => if a <? 7 then inl RPCError else inr tt))
    as [_ S'].
  split.
  - apply F; [lia|]. intros a _. exists RPCError. reflexivity.
  - rewrite (S' 7 200%nat tt); [reflexivity|lia|lia| |reflexivity].
    intros a Ha. exists RPCError. replace (a <? 7) with true by (symmetry; apply Z.ltb_lt; lia).
    reflexivity.
Defined.

(** ** The binary search of [find_first_block_on_date] *)

Lemma bsearch_sound (block_ts : Z -> option Z) (ts te lo0 hi0 : Z) (fuel : nat) :
  forall low high result b,
  lo0 <= low -> high <= hi0 ->
  (forall r, result = Some r -> lo0 <= r <= hi0 /\ exists t, block_ts r = Some t /\ ts <= t < te) ->
  bsearch fuel block_ts ts te low high result = Some b ->
  lo0 <= b <= hi0 /\ exists t, block_ts b = Some t /\ ts <= t < te.
Proof.
  induction fuel as [|f IH]; intros low high result b Hlo Hhi Hres Hb; simpl in Hb.
  - exact (Hres b Hb).
  - destruct (low <=? high) eqn:Hle; [|exact (Hres b Hb)].
    apply Z.leb_le in Hle.
    assert (Hmid : low <= (low + high) / 2 <= high).
    { pose proof (Z.div_mod (low + high) 2 ltac:(lia)).
      pose proof (Z.mod_pos_bound (low + high) 2 ltac:(lia)). lia. }
    set (mid := (low + high) / 2) in *.
    destruct (block_ts mid) as [t|] eqn:Ht.
    + destruct (t <? ts) eqn:H1; [exact (IH (mid + 1) high result b ltac:(lia) Hhi Hres Hb)|].
      destruct (te <=? t) eqn:H2; [exact (IH low (mid - 1) result b Hlo ltac:(lia) Hres Hb)|].
      apply (IH low (mid - 1) (Some mid) b Hlo ltac:(lia)) in Hb; [exact Hb|].
      intros r Hr. injection Hr as <-. split; [lia|].
      exists t. apply Z.ltb_ge in H1. apply Z.leb_gt in H2. split; [exact Ht|lia].
    + exact (IH low (mid - 1) result b Hlo ltac:(lia) Hres Hb).
Qed.

(** [find_first_block_on_date] never answers a wrong block: a block it
    returns lies between 1 and the current block number, its timestamp
    is known and falls on the requested date, [date * 86400 <= t <
    date * 86400 + 86400]. *)
Theorem find_first_block_sound (block_ts : Z -> option Z) (date current b : Z) :
  find_first_block_on_date block_ts date current = Some b ->
  1 <= b <= current /\
  exists t, block_ts b = Some t /\ date * 86400 <= t < date * 86400 + 86400.
Proof.
  unfold find_first_block_on_date. intro H.
  apply (bsearch_sound block_ts _ _ 1 current (S (Z.to_nat current)) 1 current None b); try lia; [|exact H].
  intros r Hr. discriminate.
Qed.

Lemma find_first_block_sound_witness :
  find_first_block_on_date (fun b => Some (b * 3600)) 2 100 = Some 48 /\
  1 <= 48 <= 100 /\ exists t, Some (48 * 3600) = Some t /\ 2 * 86400 <= t < 2 * 86400 + 86400.
Proof.
  split; [vm_compute; reflexivity|].
  exact (find_first_block_sound (fun b => Some (b * 3600)) 2 100 48 ltac:(vm_compute; reflexivity)).
Defined.

Section BsearchComplete.
Variable block_ts : Z -> option Z.
Variable stamp : Z -> Z.
Variables ts te current first : Z.
Hypothesis Hts : forall b, 1 <= b <= current -> block_ts b = Some (stamp b).
Hypothesis Hmono : forall i j, 1 <= i -> i <= j -> j <= current -> stamp i <= stamp j.
Hypothesis Hfirst : 1 <= first <= current /\ ts <= stamp first < te.
Hypothesis Hleast : forall b, 1 <= b < first -> ~ (ts <= stamp b < te).

Lemma bsearch_complete (fuel : nat) :
  forall low high result,
  1 <= low <= first -> high <= current -> high - low + 1 <= Z.of_nat fuel ->
  (first <= high \/ (high < first /\ result = Some first)) ->
  bsearch fuel block_ts ts te low high result = Some first.
Proof.
  destruct Hfirst as [Hf1 Hf2].
  induction fuel as [|f IH]; intros low high result Hlo Hhi Hfuel Hinv; simpl.
  - destruct Hinv as [H|[_ H]]; [lia|exact H].
  - destruct (low <=? high) eqn:Hle; [|destruct Hinv as [H|[_ H]]; [apply Z.leb_gt in Hle; lia|exact H]].
    apply Z.leb_le in Hle.
    assert (Hmid : low <= (low + high) / 2 <= high).
    { pose proof (Z.div_mod (low + high) 2 ltac:(lia)).
      pose proof (Z.mod_pos_bound (low + high) 2 ltac:(lia)). lia. }
    set (mid := (low + high) / 2) in *.
    rewrite (Hts mid) by lia.
    destruct (stamp mid <? ts) eqn:H1.
    + apply Z.ltb_lt in H1.
      assert (Hlt : mid < first).
      { destruct (Z_lt_le_dec mid first) as [|Hc]; [assumption|].
        pose proof (Hmono first mid ltac:(lia) ltac:(lia) ltac:(lia)). lia. }
      apply IH; try lia.
      destruct Hinv as [Hi|[Hi Hr]]; [left; lia|right; split; [lia|exact Hr]].
    + apply Z.ltb_ge in H1.
      assert (Hge : first <= mid).
      { destruct (Z_lt_le_dec mid first) as [Hc|]; [|assumption].
        pose proof (Hmono mid first ltac:(lia) ltac:(lia) ltac:(lia)).
        exfalso. apply (Hleast mid); lia. }
      destruct (te <=? stamp mid) eqn:H2.
      * apply Z.leb_le in H2.
        assert (Hgt : first < mid).
        { destruct (Z.eq_dec first mid) as [E|]; [rewrite E in Hf2; lia|lia]. }
        apply IH; try lia; left; lia.
      * destruct (Z.eq_dec mid first) as [E|].
        -- rewrite E. apply IH; try lia. right. split; [lia|reflexivity].
        -- apply IH; try lia; left; lia.
Qed.

End BsearchComplete.

(** When every block from 1 to the current one has a timestamp and the
    timestamps never decrease with the block number, the search finds the
    first block of the date: the block on that date with no earlier block
    on the same date. *)
Theorem find_first_block_complete (block_ts : Z -> option Z) (stamp : Z -> Z) (date current first : Z) :
  (forall b, 1 <= b <= current -> block_ts b = Some (stamp b)) ->
  (forall i j, 1 <= i -> i <= j -> j <= current -> stamp i <= stamp j) ->
  1 <= first <= current -> date * 86400 <= stamp first < date * 86400 + 86400 ->
  (forall b, 1 <= b < first -> ~ (date * 86400 <= stamp b < date * 86400 + 86400)) ->
  find_first_block_on_date block_ts date current = Some first.
Proof.
  intros Hts Hmono Hf Hd Hleast. unfold find_first_block_on_date.
  apply (bsearch_complete block_ts stamp _ _ current first Hts Hmono (conj Hf Hd) Hleast); try lia.
Qed.

Lemma find_first_block_complete_witness :
  find_first_block_on_date (fun b => Some (b * 3600)) 2 100 = Some 48.
Proof.
  apply (find_first_block_complete (fun b => Some (b * 3600)) (fun b => b * 3600) 2 100 48).
  - reflexivity.
  - intros i j H1 H2 H3. lia.
  - lia.
  - lia.
  - intros b Hb. lia.
Defined.

(** ** Spelling counts *)

Lemma count_spelling_errors_fold (dict_exists : string -> bool) (dict_check : string -> string -> bool)
    (words_of : string -> list string) (code : string) (sentences : list string) :
  forall w0 e0,
  let r := fold_left (fun acc sentence =>
               let words := words_of sentence in
               let total_words := fst acc + Z.of_nat (length words) in
               if dict_exists code
               then (total_words,
                     snd acc + Z.of_nat (length (filter (fun w => negb (String.eqb w "")
                                                                  && negb (dict_check code w))
                                                        words)))
               else (total_words, -1))
            sentences (w0, e0) in
  fst r = w0 + fold_right (fun s acc => Z.of_nat (length (words_of s)) + acc) 0 sentences /\
  (dict_exists code = false -> snd r = match sentences with [] => e0 | _ => -1 end) /\
  (dict_exists code = true ->
     e0 <= snd r <= e0 + fold_right (fun s acc => Z.of_nat (length (words_of s)) + acc) 0 sentences).
Proof.
  destruct (dict_exists code) eqn:Hd;
    induction sentences as [|x xs IH]; intros w0 e0; cbn zeta; cbn [fold_left fold_right fst snd].
  - split; [lia|split; [discriminate|lia]].
  - destruct (IH (w0 + Z.of_nat (length (words_of x)))
                 (e0 + Z.of_nat (length (filter (fun w => negb (String.eqb w "")
                                                 && negb (dict_check code w)) (words_of x)))))
      as (F & _ & E).
    pose proof (filter_length_le (fun w => negb (String.eqb w "") && negb (dict_check code w))
                  (words_of x)).
    cbn zeta in F, E. cbn [fst snd] in F, E |- *.
    split; [rewrite F; lia|split; [discriminate|intros _; specialize (E eq_refl); lia]].
  - split; [lia|split; [reflexivity|discriminate]].
  - destruct (IH (w0 + Z.of_nat (length (words_of x))) (-1)) as (F & E & _).
    cbn zeta in F, E. cbn [fst snd] in F, E |- *.
    split; [rewrite F; lia|split; [intros _; rewrite (E eq_refl); destruct xs; reflexivity|discriminate]].
Qed.

(** [count_spelling_errors] counts every token of every sentence as a
    word; with a dictionary the error count lies between 0 and the word
    count; without one it is -1, except for an empty list of sentences,
    for which the loop never runs and the count stays 0. *)
Theorem count_spelling_errors_range (dict_exists : string -> bool) (dict_check : string -> string -> bool)
    (words_of : string -> list string) (sentences : list string) (code : string) :
  fst (count_spelling_errors dict_exists dict_check words_of sentences code)
    = fold_right (fun s acc => Z.of_nat (length (words_of s)) + acc) 0 sentences /\
  (dict_exists code = false ->
     snd (count_spelling_errors dict_exists dict_check words_of sentences code)
       = match sentences with [] => 0 | _ => -1 end) /\
  (dict_exists code = true ->
     0 <= snd (count_spelling_errors dict_exists dict_check words_of sentences code)
       <= fst (count_spelling_errors dict_exists dict_check words_of sentences code)).
Proof.
  unfold count_spelling_errors.
  destruct (count_spelling_errors_fold dict_exists dict_check words_of code sentences 0 0) as (F & N & D).
  cbv zeta in F, N, D |- *.
  split; [exact F|split; [exact N|]].
  intros Hd. rewrite F. exact (D Hd).
Qed.

Lemma count_spelling_errors_range_witness :
  snd (count_spelling_errors (fun _ => false) (fun _ _ => true) (fun _ => ["a"]) [] "xx") = 0 /\
  snd (count_spelling_errors (fun _ => false) (fun _ _ => true) (fun _ => ["a"]) ["s"] "xx") = -1.
Proof.
  split.
  - exact (proj1 (proj2 (count_spelling_errors_range (fun _ => false) (fun _ _ => true) (fun _ => ["a"])
                           [] "xx")) eq_refl).
  - exact (proj1 (proj2 (count_spelling_errors_range (fun _ => false) (fun _ _ => true) (fun _ => ["a"])
                           ["s"] "xx")) eq_refl).
Defined.

(** ** Language groups of a post body *)

Section LanguageGroups.
Variable dict_exists : string -> bool.
Variable dict_check : string -> string -> bool.
Variable words_of : string -> list string.
Variable paragraphs_of : string -> list string.
Variable is_blank : string -> bool.
Variable split_sentences : string -> list string.
Variable detect_language : string -> option string.

Lemma add_paragraph_keys (l : string) (ss : list string) (data : list (string * (Z * list string))) :
  forall k, In k (map fst (add_paragraph l ss data)) <-> l = k \/ In k (map fst data).
Proof.
  induction data as [|[k' [n ss0]] data IH]; intros k; simpl; [tauto|].
  destruct (String.eqb l k') eqn:E; simpl.
  - apply String.eqb_eq in E. subst. tauto.
  - rewrite IH. tauto.
Qed.

Lemma add_paragraph_nodup (l : string) (ss : list string) (data : list (string * (Z * list string))) :
  NoDup (map fst data) -> NoDup (map fst (add_paragraph l ss data)).
Proof.
  induction data as [|[k' [n ss0]] data IH]; intros H; simpl.
  - constructor; [intros []|constructor].
  - inversion H as [|? ? Hn Hd]; subst.
    destruct (String.eqb l k') eqn:E; simpl; [exact H|].
    constructor; [|exact (IH Hd)].
    rewrite add_paragraph_keys.
    intros [E'|Hin]; [subst; rewrite String.eqb_refl in E; discriminate|exact (Hn Hin)].
Qed.

Lemma add_paragraph_total (l : string) (ss : list string) (data : list (string * (Z * list string))) :
  paragraph_total (add_paragraph l ss data) = paragraph_total data + 1.
Proof.
  unfold paragraph_total.
  induction data as [|[k' [n ss0]] data IH]; simpl; [lia|].
  destruct (String.eqb l k'); simpl; [lia|]. rewrite IH. lia.
Qed.

Lemma add_paragraph_ok (l : string) (ss : list string) (data : list (string * (Z * list string))) :
  ss <> [] -> Forall (fun s => detect_language s = Some l) ss ->
  Forall (group_ok detect_language) data -> Forall (group_ok detect_language) (add_paragraph l ss data).
Proof.
  intros Hne Hss.
  induction data as [|[k' [n ss0]] data IH]; intros H; simpl.
  - apply Forall_cons; [|apply Forall_nil]. unfold group_ok; simpl. split; [lia|split; assumption].
  - inversion H as [|? ? Hg Hd]; subst.
    destruct (String.eqb l k') eqn:E.
    + apply String.eqb_eq in E. subst.
      apply Forall_cons; [|exact Hd].
      unfold group_ok in *. simpl in *. destruct Hg as (G1 & G2 & G3).
      split; [lia|split; [destruct ss0; [congruence|discriminate]|apply Forall_app; split; assumption]].
    + apply Forall_cons; [exact Hg|exact (IH Hd)].
Qed.

Lemma sentence_langs_detected (p : string) :
  Forall (fun x => detect_language (fst x) = Some (snd x))
    (sentence_langs split_sentences detect_language p).
Proof.
  unfold sentence_langs. apply Forall_forall. intros [s l] Hin.
  apply in_flat_map in Hin. destruct Hin as [s' [_ Hin]].
  destruct (detect_language s') eqn:E; simpl in Hin; [|contradiction].
  destruct Hin as [Heq|[]]. injection Heq as <- <-. exact E.
Qed.

Lemma bump_keys (l : string) (m : list (string * Z)) :
  forall k, In k (map fst (bump l m)) -> l = k \/ In k (map fst m).
Proof.
  induction m as [|[k' n] m IH]; intros k; simpl; [tauto|].
  destruct (String.eqb l k'); simpl; [tauto|].
  intros [H|H]; [tauto|]. destruct (IH k H); tauto.
Qed.

Lemma bump_nonempty (l : string) (m : list (string * Z)) : bump l m <> [].
Proof. destruct m as [|[k' n] m]; simpl; [discriminate|]. destruct (String.eqb l k'); discriminate. Qed.

Lemma lang_counts_keys (sl : list (string * string)) :
  forall m0 k, In k (map fst (fold_left (fun m x => bump (snd x) m) sl m0)) ->
  In k (map fst m0) \/ In k (map snd sl).
Proof.
  induction sl as [|x sl IH]; intros m0 k H; simpl in *; [tauto|].
  destruct (IH _ _ H) as [H'|H']; [|tauto].
  destruct (bump_keys _ _ _ H'); tauto.
Qed.

Lemma lang_counts_nonempty (sl : list (string * string)) :
  forall m0, fold_left (fun m x => bump (snd x) m) sl m0 = [] -> sl = [] /\ m0 = [].
Proof.
  induction sl as [|x sl IH]; intros m0 H; simpl in *; [tauto|].
  destruct (IH _ H) as [_ H']. exfalso. exact (bump_nonempty _ _ H').
Qed.

Lemma dominant_in (m : list (string * Z)) (d : string) :
  dominant m = Some d -> In d (map fst m).
Proof.
  destruct m as [|kv m]; simpl; [discriminate|]. intros H. injection H as <-.
  assert (G : forall acc, In (fold_left (fun best kv' => if snd best <? snd kv' then kv' else best) m acc)
                           (acc :: m)).
  { induction m as [|y m IH]; intros acc; simpl; [tauto|].
    destruct (snd acc <? snd y); [destruct (IH y) as [E|E]|destruct (IH acc) as [E|E]]; tauto. }
  exact (in_map fst (kv :: m) _ (G kv)).
Qed.

Lemma process_paragraph_inv (data : list (string * (Z * list string))) (p : string) :
  NoDup (map fst data) -> Forall (group_ok detect_language) data ->
  NoDup (map fst (process_paragraph is_blank split_sentences detect_language data p)) /\
  Forall (group_ok detect_language) (process_paragraph is_blank split_sentences detect_language data p) /\
  paragraph_total (process_paragraph is_blank split_sentences detect_language data p)
    = paragraph_total data +
      (if negb (is_blank p) && match sentence_langs split_sentences detect_language p with
                               | [] => false | _ => true end then 1 else 0).
Proof.
  intros Hn Hg. unfold process_paragraph.
  destruct (is_blank p); simpl; [split; [exact Hn|split; [exact Hg|lia]]|].
  set (sl := sentence_langs split_sentences detect_language p).
  assert (Hdet := sentence_langs_detected p). fold sl in Hdet.
  destruct (dominant (fold_left (fun m x => bump (snd x) m) sl [])) as [dl|] eqn:Hd.
  - assert (Hin : In dl (map snd sl)).
    { destruct (lang_counts_keys sl [] dl (dominant_in _ _ Hd)) as [[]|H]; exact H. }
    assert (Hsl : sl <> []) by (intros E; rewrite E in Hin; destruct Hin).
    split; [apply add_paragraph_nodup; exact Hn|split].
    + apply add_paragraph_ok; [| |exact Hg].
      * apply in_map_iff in Hin. destruct Hin as [[s l] [Hl Hx]]. simpl in Hl. subst l.
        intros E. assert (Hf : In (s, dl) (filter (fun x => String.eqb (snd x) dl) sl)).
        { apply filter_In. split; [exact Hx|apply String.eqb_refl]. }
        destruct (filter (fun x => String.eqb (snd x) dl) sl); [destruct Hf|discriminate].
      * apply Forall_forall. intros s Hs. apply in_map_iff in Hs.
        destruct Hs as [[s' l] [Hs Hx]]. simpl in Hs. subst s'.
        apply filter_In in Hx. destruct Hx as [Hx Hl]. simpl in Hl. apply String.eqb_eq in Hl. subst l.
        exact (proj1 (Forall_forall _ _) Hdet _ Hx).
    + rewrite add_paragraph_total. destruct sl; [congruence|reflexivity].
  - split; [exact Hn|split; [exact Hg|]].
    destruct sl as [|x sl'] eqn:Es; [simpl; lia|].
    exfalso. destruct (fold_left (fun m x => bump (snd x) m) (x :: sl') []) as [|kv m] eqn:Em.
    + destruct (lang_counts_nonempty _ _ Em) as [E _]. discriminate.
    + discriminate.
Qed.

Lemma process_paragraphs_inv (ps : list string) :
  forall data, NoDup (map fst data) -> Forall (group_ok detect_language) data ->
  let out := fold_left (process_paragraph is_blank split_sentences detect_language) ps data in
  NoDup (map fst out) /\ Forall (group_ok detect_language) out /\
  paragraph_total out = paragraph_total data +
    Z.of_nat (length (filter (fun p => negb (is_blank p) &&
                                      match sentence_langs split_sentences detect_language p with
                                      | [] => false | _ => true end) ps)).
Proof.
  induction ps as [|p ps IH]; intros data Hn Hg; simpl; [split; [exact Hn|split; [exact Hg|lia]]|].
  destruct (process_paragraph_inv data p Hn Hg) as (N & G & T).
  destruct (IH _ N G) as (N' & G' & T').
  split; [exact N'|split; [exact G'|]]. rewrite T', T.
  destruct (negb (is_blank p) && match sentence_langs split_sentences detect_language p with
                                 | [] => false | _ => true end); simpl length; lia.
Qed.

(** The result of [process_html_by_language] has each language once; every
    language in it has at least one paragraph and a nonempty list of
    sentences, each of which [detect_language] assigned to that language;
    and the paragraph counts add up to the number of non-blank paragraphs
    with at least one sentence whose language was detected. *)
Theorem process_html_language_groups (html : string) :
  let out := process_html_by_language dict_exists dict_check words_of paragraphs_of is_blank
               split_sentences detect_language html in
  NoDup (map fst out) /\
  Forall (fun e => 1 <= fst (fst (snd e)) /\ snd (fst (snd e)) <> [] /\
                   Forall (fun s => detect_language s = Some (fst e)) (snd (fst (snd e)))) out /\
  fold_right (fun e acc => fst (fst (snd e)) + acc) 0 out
    = Z.of_nat (length (filter (fun p => negb (is_blank p) &&
                                         match sentence_langs split_sentences detect_language p with
                                         | [] => false | _ => true end) (paragraphs_of html))).
Proof.
  cbv zeta. unfold process_html_by_language.
  destruct (process_paragraphs_inv (paragraphs_of html) [] (NoDup_nil _) (Forall_nil _)) as (N & G & T).
  cbv zeta in N, G, T.
  set (data := fold_left (process_paragraph is_blank split_sentences detect_language) (paragraphs_of html) [])
    in *.
  split; [|split].
  - rewrite map_map. simpl. exact N.
  - apply Forall_map. eapply Forall_impl; [|exact G]. intros e He. exact He.
  - assert (E : forall d : list (string * (Z * list string)),
                 fold_right (fun e acc => fst (fst (snd e)) + acc) 0
                   (map (fun e => (fst e, (fst (snd e), snd (snd e),
                                           count_spelling_errors dict_exists dict_check words_of
                                             (snd (snd e)) (fst e)))) d)
                 = paragraph_total d).
    { induction d as [|e d IH]; simpl; [reflexivity|]. rewrite IH. reflexivity. }
    rewrite E, T. reflexivity.
Qed.

End LanguageGroups.
